(** * SendToDyadButton: file-source resolution and selection

    A shallow embedding of [app/components/ui/SendToDyadButton.tsx]:
    [normalizeContent], [extractFilesMap], [gatherFilesMaps],
    [keyVariants], [chooseFilesFromMap], [waitAndCollectFilesMap] and
    [handleClick], followed by the properties of the selection pipeline.

    JavaScript values live in a heap of objects addressed by references, so
    that "the same object" is equality of references.  The embedding covers
    plain data: [undefined], [null], booleans, integer-valued numbers of
    magnitude below [2^53] (for which [String(n)] is the decimal numeral),
    strings whose code units are below 256 (a Rocq string holds one byte per
    code unit, so lengths and indices agree with JavaScript's on such text
    only), plain objects, dense arrays, [ArrayBuffer]s and integer
    typed-array views.  Larger numbers, other text, getters, proxies,
    symbols, functions, the prototype chain beyond the built-in accessors
    used by the source, and an own property named [__proto__] are outside
    the embedding. *)

From Stdlib Require Import ZArith String Ascii List Bool Lia DecimalString.
From stdpp Require Import base gmap strings list pretty.

Open Scope string_scope.
Open Scope list_scope.
Open Scope Z_scope.

(** ** Strings *)

Module JsString.

(** [k.startsWith(p)] *)
Definition startsWith (k p : string) : bool := String.prefix p k.

(** [k.endsWith(r)] *)
Definition endsWith (k r : string) : bool :=
  String.prefix (String.rev r) (String.rev k).

(** [k.includes(s)] *)
Fixpoint includes (k s : string) : bool :=
  String.prefix s k ||
  match k with
  | EmptyString => false
  | String _ k' => includes k' s
  end.

(** [p.replace(/^\//, '')]: drops one leading separator. *)
Definition stripLeadingSlash (p : string) : string :=
  match p with
  | String "/"%char rest => rest
  | _ => p
  end.

(** [xs.join(sep)] *)
Fixpoint join (sep : string) (xs : list string) : string :=
  match xs with
  | [] => ""
  | [x] => x
  | x :: rest => x +:+ sep +:+ join sep rest
  end.

(** The canonical numeric strings below [2^32 - 1]: the property keys an
    ordinary object enumerates first, in ascending order. *)
Definition arrayIndex (s : string) : option N :=
  match NilZero.uint_of_string s with
  | Some u =>
      let n := N.of_uint u in
      if String.eqb (pretty n) s && (n <? 4294967295)%N then Some n else None
  | None => None
  end.

End JsString.
Import JsString.

(** ** Values, objects and the heap *)

Definition loc := positive.

Inductive value : Type :=
| VUndefined
| VNull
| VBool (b : bool)
| VNum (n : Z)
| VStr (s : string)
| VRef (l : loc).

#[global] Instance value_eq_dec : EqDecision value.
Proof. solve_decision. Defined.

(** Own enumerable string-keyed properties are kept in enumeration order. *)
Inductive object : Type :=
| OObj (props : list (string * value))
| OArr (elems : list value)
| OBuf (bytes : list Byte.byte)
| OView (buffer : loc) (elems : list Z).

Abbreviation heap := (gmap loc object).

(** Completion of a call that may throw. *)
Inductive result (A : Type) : Type :=
| Ok (a : A)
| Throw (e : string).
Arguments Ok {A} a.
Arguments Throw {A} e.

Definition rbind {A B} (r : result A) (k : A -> result B) : result B :=
  match r with
  | Ok a => k a
  | Throw e => Throw e
  end.

Notation "'let*' x ':=' r 'in' k" := (rbind r (fun x => k))
  (at level 10, x pattern, r at level 100, k at level 200, only parsing).

Fixpoint mapM {A B} (f : A -> result B) (xs : list A) : result (list B) :=
  match xs with
  | [] => Ok []
  | x :: rest => let* y := f x in let* ys := mapM f rest in Ok (y :: ys)
  end.

Module Js.

(** ToBoolean *)
Definition truthy (v : value) : bool :=
  match v with
  | VUndefined | VNull => false
  | VBool b => b
  | VNum n => negb (n =? 0)
  | VStr s => negb (String.eqb s "")
  | VRef _ => true
  end.

(** [v == null] *)
Definition nullish (v : value) : bool :=
  match v with
  | VUndefined | VNull => true
  | _ => false
  end.

(** [typeof v === 'object'] *)
Definition typeofObject (v : value) : bool :=
  match v with
  | VNull | VRef _ => true
  | _ => false
  end.

(** [Array.isArray(v)] *)
Definition isArray (h : heap) (v : value) : bool :=
  match v with
  | VRef l => match h !! l with Some (OArr _) => true | _ => false end
  | _ => false
  end.

(** [a ?? b] *)
Definition coalesce (a b : value) : value := if nullish a then b else a.

(** The keys ["0"], ..., ["n-1"]. *)
Definition indexKeys (n : nat) : list string :=
  (fun i : nat => pretty i) <$> seq 0 n.

Definition lookupProp (k : string) (props : list (string * value)) : option value :=
  snd <$> List.find (fun kv => String.eqb (fst kv) k) props.

(** [Object.keys(v)] for a [v] that is neither [undefined] nor [null];
    every call in the source is reached with such a value only. *)
Definition Object_keys (h : heap) (v : value) : list string :=
  match v with
  | VRef l =>
      match h !! l with
      | Some (OObj props) => fst <$> props
      | Some (OArr elems) => indexKeys (length elems)
      | Some (OView _ elems) => indexKeys (length elems)
      | Some (OBuf _) | None => []
      end
  | VStr s => indexKeys (String.length s)
  | _ => []
  end.

Definition indexed {A} (k : string) (xs : list A) : option A :=
  match arrayIndex k with
  | Some n => xs !! N.to_nat n
  | None => None
  end.

(** [v[k]] for a [v] that is neither [undefined] nor [null]. *)
Definition getProp (h : heap) (v : value) (k : string) : value :=
  match v with
  | VRef l =>
      match h !! l with
      | Some (OObj props) => default VUndefined (lookupProp k props)
      | Some (OArr elems) =>
          if String.eqb k "length" then VNum (Z.of_nat (length elems))
          else default VUndefined (indexed k elems)
      | Some (OBuf bytes) =>
          if String.eqb k "byteLength" then VNum (Z.of_nat (length bytes))
          else VUndefined
      | Some (OView b elems) =>
          if String.eqb k "buffer" then VRef b
          else if String.eqb k "length" then VNum (Z.of_nat (length elems))
          else default VUndefined (VNum <$> indexed k elems)
      | None => VUndefined
      end
  | VStr s =>
      if String.eqb k "length" then VNum (Z.of_nat (String.length s))
      else default VUndefined
             ((fun c => VStr (String c "")) <$> indexed k (list_ascii_of_string s))
  | _ => VUndefined
  end.

(** [v.k] where the source does not guard [v]: reading a property of
    [undefined] or [null] throws. *)
Definition getPropE (h : heap) (v : value) (k : string) : result value :=
  if nullish v then Throw "TypeError" else Ok (getProp h v k).

(** [props[k] = v] on an ordinary object: an existing key keeps its place,
    a new array-index key goes among the index keys in ascending order,
    any other new key goes last. *)
Fixpoint replaceProp (k : string) (v : value) (props : list (string * value))
  : list (string * value) :=
  match props with
  | [] => []
  | (k', v') :: rest =>
      if String.eqb k' k then (k', v) :: rest else (k', v') :: replaceProp k v rest
  end.

Fixpoint insertIndexProp (n : N) (k : string) (v : value)
    (props : list (string * value)) : list (string * value) :=
  match props with
  | [] => [(k, v)]
  | (k', v') :: rest =>
      match arrayIndex k' with
      | Some n' =>
          if (n' <? n)%N then (k', v') :: insertIndexProp n k v rest
          else (k, v) :: props
      | None => (k, v) :: props
      end
  end.

Definition setProp (k : string) (v : value) (props : list (string * value))
  : list (string * value) :=
  match lookupProp k props with
  | Some _ => replaceProp k v props
  | None =>
      match arrayIndex k with
      | Some n => insertIndexProp n k v props
      | None => props ++ [(k, v)]
      end
  end.

(** Allocation of a new object. *)
Definition alloc (h : heap) (o : object) : heap * loc :=
  let l := fresh (dom h) in (<[l := o]> h, l).

(** The bytes behind [new Uint8Array(b)] for an [ArrayBuffer] [b]. *)
Definition bufferBytes (h : heap) (v : value) : list Byte.byte :=
  match v with
  | VRef l => match h !! l with Some (OBuf bytes) => bytes | _ => [] end
  | _ => []
  end.

(** [String(v)] for a primitive [v]; objects go through [objectToString].
    A number is printed as its decimal numeral, which is what JavaScript
    does below [10^21]; the embedding holds numbers below [2^53] only. *)
Definition primToString (v : value) : string :=
  match v with
  | VUndefined => "undefined"
  | VNull => "null"
  | VBool true => "true"
  | VBool false => "false"
  | VNum n => pretty n
  | VStr s => s
  | VRef _ => "[object Object]"
  end.

End Js.
Import Js.

(** ** Constants of the component *)

Definition PREFERRED_PREFIXES : list string :=
  [ "/home/project"; "home/project"; "/project"; "project"; "src/"; "public/";
    "/client"; "/server"; "client/"; "server/" ].

Definition PREFERRED_ROOT_FILES : list string :=
  [ "package.json"; "/home/project/package.json"; "vite.config.ts";
    "vite.config.js"; "tsconfig.json"; "tsconfig.node.json";
    "postcss.config.js"; "tailwind.config.js"; "index.html" ].

Record fileEntry : Type := FileEntry { path : string; content : value }.

#[global] Instance fileEntry_eq_dec : EqDecision fileEntry.
Proof. solve_decision. Defined.

(** ** The component

    The engine's own string conversions are parameters of the component:
    [JSON.stringify] (which throws on cyclic data), [btoa], and the string an
    object turns into when it is used as a property key.  So is the number
    of arguments the engine accepts in one call: a spread of more elements
    throws a [RangeError]. *)

Section SendToDyadButton.

Variable JSON_stringify : heap -> value -> result value.
Variable btoa : string -> string.
Variable maxArguments : nat.
Variable objectToString : heap -> loc -> string.

(** [String.fromCharCode(...new Uint8Array(b))]: the spread passes one
    argument per byte, and the call throws when there are more bytes than
    the engine takes arguments. *)
Definition binaryString (h : heap) (b : value) : result string :=
  let bytes := bufferBytes h b in
  if (length bytes <=? maxArguments)%nat then Ok (string_of_list_byte bytes)
  else Throw "RangeError".

Definition normalizeContent (h : heap) (val : value) : result value :=
  if nullish val then Ok (VStr "") else
  match val with
  | VStr _ => Ok val
  | VRef l =>
      match h !! l with
      | Some (OBuf _) =>
          let* s := binaryString h val in
          Ok (VStr ("__base64:" +:+ btoa s))
      | Some (OView _ _) =>
          let buffer := getProp h val "buffer" in
          let* s := binaryString h (if truthy buffer then buffer else val) in
          Ok (VStr ("__base64:" +:+ btoa s))
      | _ =>
          let c := getProp h val "content" in
          if negb (nullish c) then Ok c else
          let t := getProp h val "text" in
          if negb (nullish t) then Ok t else
          let d := getProp h val "data" in
          if negb (nullish d) then Ok d else
          JSON_stringify h val
      end
  | _ => Ok (VStr (primToString val))
  end.

(** The test on the first key in the third shape of [extractFilesMap]. *)
Definition looksLikeProjectKey (k : string) : bool :=
  startsWith k "/home/project" || startsWith k "home/project" ||
  startsWith k "src" || startsWith k "public" || includes k "index.html".

Definition extractFilesMap (h : heap) (candidate : value) : value :=
  if negb (truthy candidate) || negb (typeofObject candidate) then VNull else
  let files := getProp h candidate "files" in
  if truthy files && typeofObject files && negb (isArray h files) then files else
  let snapshot := getProp h candidate "snapshot" in
  let sfiles := getProp h snapshot "files" in
  if truthy snapshot && truthy sfiles && typeofObject sfiles
     && negb (isArray h sfiles)
  then sfiles else
  match Object_keys h candidate with
  | k0 :: _ => if looksLikeProjectKey k0 then candidate else VNull
  | [] => VNull
  end.

Definition keyVariants (p : string) : list string :=
  if String.eqb p "" then [p]
  else if startsWith p "/" then [p; stripLeadingSlash p]
  else [p; "/" +:+ p].

(** [new Set<string>()] with [add]: insertion order, no repetition. *)
Definition setAdd (x : string) (s : list string) : list string :=
  if bool_decide (x ∈ s) then s else s ++ [x].

(** Tier 1: the loop filling [normalizedCreated]. *)
Definition pushVariant (keys : list string) (acc : list string) (v : string)
  : list string :=
  if bool_decide (v ∈ keys) && negb (bool_decide (v ∈ acc)) then acc ++ [v]
  else acc.

Definition normalizedCreated (keys createdPaths : list string) : list string :=
  foldl (fun acc p => foldl (pushVariant keys) acc (keyVariants p)) [] createdPaths.

(** Tier 2: the loop filling [chosen]. *)
Definition matchesPrefix (k pref : string) : bool :=
  startsWith k pref || startsWith k (stripLeadingSlash pref).

Definition matchesRoot (k root : string) : bool :=
  endsWith k root || String.eqb k root || String.eqb k ("/" +:+ root).

Definition chosenStep (chosen : list string) (k : string) : list string :=
  let chosen1 :=
    foldl (fun c pref => if matchesPrefix k pref then setAdd k c else c)
          chosen PREFERRED_PREFIXES in
  foldl (fun c root => if matchesRoot k root then setAdd k c else c)
        chosen1 PREFERRED_ROOT_FILES.

Definition chosenKeys (keys : list string) : list string :=
  foldl chosenStep [] keys.

(** Tier 3: [/src\/|public\/|index\.html|package\.json|vite\.config/.test(k)] *)
Definition fallbackPattern (k : string) : bool :=
  includes k "src/" || includes k "public/" || includes k "index.html" ||
  includes k "package.json" || includes k "vite.config".

Definition toEntry (h : heap) (filesMap : value) (k : string) : result fileEntry :=
  let* c := normalizeContent h (getProp h filesMap k) in
  Ok (FileEntry k c).

Definition chooseFilesFromMap (h : heap) (filesMap : value)
    (createdPaths : list string) : result (list fileEntry) :=
  if negb (truthy filesMap) then Ok [] else
  let keys := Object_keys h filesMap in
  let normalized := normalizedCreated keys createdPaths in
  if negb (Nat.eqb (length normalized) 0) then mapM (toEntry h filesMap) normalized else
  let chosen := chosenKeys keys in
  if negb (Nat.eqb (length chosen) 0) then mapM (toEntry h filesMap) chosen else
  let fallback := List.filter fallbackPattern keys in
  if negb (Nat.eqb (length fallback) 0) then mapM (toEntry h filesMap) fallback else
  mapM (toEntry h filesMap) (take 5000 keys).

(** *** The sources read by one sweep

    One sweep of [gatherFilesMaps] observes one state of the browser: the
    heap, the object stores of the [boltHistory] database ([None] when
    [indexedDB.open] fails, otherwise the records [getAll] returns for each
    store that exists), and the three global names probed on [window]. *)

Record windowGlobals : Type := WindowGlobals {
  g__workbench__ : value;
  g_workbenchStore : value;
  g_workbench : value }.

Record env : Type := Env {
  envHeap : heap;
  boltHistory : option (gmap string (list value));
  window : windowGlobals }.

(** [readObjectStoreAll('boltHistory', storeName)]; [getSnapshotsEntries]
    is the same read of the [snapshots] store.  The result is always an
    array, here a list. *)
Definition readObjectStoreAll (e : env) (storeName : string) : list value :=
  match boltHistory e with
  | Some stores => default [] (stores !! storeName)
  | None => []
  end.

Definition getSnapshotsEntries (e : env) : list value :=
  readObjectStoreAll e "snapshots".

Definition containsStore (e : env) (storeName : string) : bool :=
  match boltHistory e with
  | Some stores => bool_decide (is_Some (stores !! storeName))
  | None => false
  end.

(** ToPropertyKey *)
Definition toKey (h : heap) (v : value) : string :=
  match v with
  | VRef l => objectToString h l
  | _ => primToString v
  end.

Fixpoint foldM {A B} (f : A -> B -> result A) (a : A) (xs : list B) : result A :=
  match xs with
  | [] => Ok a
  | x :: rest => let* a' := f a x in foldM f a' rest
  end.

(** [const map = {}; for (const it of items) map[it.path] = it.content ?? it.data ?? it] *)
Definition collapseStep (h : heap) (props : list (string * value)) (it : value)
  : result (list (string * value)) :=
  let* p := getPropE h it "path" in
  Ok (setProp (toKey h p)
        (coalesce (coalesce (getProp h it "content") (getProp h it "data")) it)
        props).

Definition collapse (h : heap) (items : list value) : result (heap * value) :=
  let* props := foldM (collapseStep h) [] items in
  let '(h', l) := alloc h (OObj props) in
  Ok (h', VRef l).

(** [extractFilesMap(s) || extractFilesMap(s.snapshot) ||
     extractFilesMap(s.data) || extractFilesMap(s.payload)] *)
Definition extractFromSnapshot (h : heap) (s : value) : result value :=
  let c0 := extractFilesMap h s in
  if truthy c0 then Ok c0 else
  let* snap := getPropE h s "snapshot" in
  let c1 := extractFilesMap h snap in
  if truthy c1 then Ok c1 else
  let* d := getPropE h s "data" in
  let c2 := extractFilesMap h d in
  if truthy c2 then Ok c2 else
  let* pl := getPropE h s "payload" in
  Ok (extractFilesMap h pl).

Definition pushIf (maps : list value) (m : value) : list value :=
  if truthy m then maps ++ [m] else maps.

(** 1) the snapshots store *)
Definition gatherSnapshots (e : env) (maps : list value) : result (list value) :=
  foldM (fun maps s => let* cand := extractFromSnapshot (envHeap e) s in
                       Ok (pushIf maps cand))
        maps (getSnapshotsEntries e).

(** 2) the [files] and [workspace] stores.  [f] is an array, so the
    source's [else if (... !Array.isArray(f))] branch is never taken. *)
Definition gatherFilesStore (e : env) (st : heap * list value)
  : result (heap * list value) :=
  let '(h, maps) := st in
  if containsStore e "files" then
    match readObjectStoreAll e "files" with
    | (f0 :: _) as f =>
        let* p := getPropE h f0 "path" in
        if truthy p then
          let* (h', map) := collapse h f in Ok (h', maps ++ [map])
        else Ok st
    | [] => Ok st
    end
  else Ok st.

Definition gatherWorkspaceStore (e : env) (st : heap * list value)
  : heap * list value :=
  let '(h, maps) := st in
  if containsStore e "workspace" then
    (h, foldl (fun maps item => pushIf maps (extractFilesMap h item))
              maps (readObjectStoreAll e "workspace"))
  else st.

Definition gatherTopLevelStores (e : env) (st : heap * list value)
  : result (heap * list value) :=
  match boltHistory e with
  | Some _ =>
      let* st1 := gatherFilesStore e st in
      Ok (gatherWorkspaceStore e st1)
  | None => Ok st
  end.

(** 3) the [boltFiles] store *)
Definition gatherBoltFiles (e : env) (st : heap * list value)
  : result (heap * list value) :=
  let '(h, maps) := st in
  match readObjectStoreAll e "boltFiles" with
  | (o0 :: _) as other =>
      if truthy o0 && truthy (getProp h o0 "path") then
        let* (h', map) := collapse h other in Ok (h', maps ++ [map])
      else
        Ok (h, foldl (fun maps it => pushIf maps (extractFilesMap h it)) maps other)
  | [] => Ok st
  end.

(** 4) the in-memory workbench; the source wraps this part in
    [try { ... } catch (e) { }], so a throw ends it and keeps what was
    pushed before. *)
Definition orElse (a b : value) : value := if truthy a then a else b.

Definition workbenchObject (w : windowGlobals) : value :=
  orElse (orElse (orElse (orElse (g__workbench__ w) (g_workbenchStore w))
                         (g_workbenchStore w))
                 (g_workbench w))
         VNull.

Definition arrayElems (h : heap) (v : value) : option (list value) :=
  match v with
  | VRef l => match h !! l with Some (OArr elems) => Some elems | _ => None end
  | _ => None
  end.

(** One turn of [for (const c of candidates)]; the boolean tells whether
    the turn completed without throwing. *)
Definition workbenchStep (st : heap * list value) (c : value)
  : (heap * list value) * bool :=
  let '(h, maps) := st in
  let maps1 := pushIf maps (extractFilesMap h c) in
  match arrayElems h c with
  | Some ((c0 :: _) as elems) =>
      match getPropE h c0 "path" with
      | Ok p =>
          if truthy p then
            match collapse h elems with
            | Ok (h', map) => ((h', maps1 ++ [map]), true)
            | Throw _ => ((h, maps1), false)
            end
          else ((h, maps1), true)
      | Throw _ => ((h, maps1), false)
      end
  | _ => ((h, maps1), true)
  end.

Fixpoint workbenchLoop (st : heap * list value) (cs : list value)
  : heap * list value :=
  match cs with
  | [] => st
  | c :: rest =>
      let '(st', completed) := workbenchStep st c in
      if completed then workbenchLoop st' rest else st'
  end.

Definition gatherWorkbench (e : env) (st : heap * list value) : heap * list value :=
  let wb := workbenchObject (window e) in
  if truthy wb then
    let h := fst st in
    workbenchLoop st
      [ getProp h wb "files"; getProp h wb "vfs"; getProp h wb "fs";
        getProp h wb "snapshot"; getProp h wb "state"; getProp h wb "_internal" ]
  else st.

(** The list [maps] before deduplication: the aggregation order. *)
Definition collectMaps (e : env) : result (heap * list value) :=
  let* maps := gatherSnapshots e [] in
  let* st2 := gatherTopLevelStores e (envHeap e, maps) in
  let* st3 := gatherBoltFiles e st2 in
  Ok (gatherWorkbench e st3).

(** [Object.keys(m).slice(0, 10).join(',')] *)
Definition signature (h : heap) (m : value) : string :=
  join "," (take 10 (Object_keys h m)).

Definition dedupeStep (h : heap) (st : list value * list string) (m : value)
  : list value * list string :=
  let '(unique, seenSignatures) := st in
  let keys := signature h m in
  if bool_decide (keys ∈ seenSignatures) then st
  else (unique ++ [m], seenSignatures ++ [keys]).

Definition dedupe (h : heap) (maps : list value) : list value :=
  fst (foldl (dedupeStep h) ([], []) maps).

Definition gatherFilesMaps (e : env) : result (heap * list value) :=
  let* (h, maps) := collectMaps e in
  Ok (h, dedupe h maps).

(** *** The poll loop and the click handler

    What the handler does to its surroundings is recorded as a log of
    events, oldest first.  Time is the reading of [Date.now()]: a sweep
    reads the browser state of the moment it starts and takes [sweepMs]
    milliseconds, a timer of [d] milliseconds fires after [max 0 d].  What
    goes to the console is not recorded beyond the call itself. *)

Record uploadBody : Type := UploadBody {
  projectId : option string;
  projectName : option string;
  framework : string;
  template : string;
  files : list fileEntry }.

Inductive event : Type :=
| SetRunning (b : bool)
| SetStatus (s : string)
| Swept
| Slept (ms : Z)
| Prompted (message defaultValue : string)
| Fetched (url : string) (body : uploadBody)
| ConsoleError
| ConsoleLog.

Record response : Type := Response { ok : bool; status : Z }.

Record world : Type := World {
  clock : Z;
  timeline : Z -> env;
  sweepMs : Z;
  events : list event }.

(** The page around the component: [process.env.VITE_DYAD_BACKEND_URL],
    [Math.random().toString(36).slice(2, 9)], [document.title], the user's
    answer to [prompt(message, default)] ([None] for Cancel), the outcome of
    [fetch], and [JSON.stringify] of the request body. *)
Record host : Type := Host {
  envBackendUrl : option string;
  randomSuffix : string;
  documentTitle : string;
  promptUser : string -> string -> option string;
  fetch : string -> string -> result response;
  stringifyBody : heap -> uploadBody -> result string }.

Record props : Type := Props {
  defaultProjectName : option string;
  defaultFramework : string;
  createdFilePaths : list string;
  waitTimeoutMs : Z;
  waitIntervalMs : Z }.

Definition log (ev : event) (w : world) : world :=
  World (clock w) (timeline w) (sweepMs w) (events w ++ [ev]).

Definition advance (ms : Z) (w : world) : world :=
  World (clock w + ms) (timeline w) (sweepMs w) (events w).

(** [await gatherFilesMaps()] *)
Definition sweep (w : world) : result (heap * list value) * world :=
  (gatherFilesMaps (timeline w (clock w)), advance (sweepMs w) (log Swept w)).

(** [await new Promise(r => setTimeout(r, intervalMs))] *)
Definition sleep (intervalMs : Z) (w : world) : world :=
  advance (Z.max 0 intervalMs) (log (Slept intervalMs) w).

(** [targetKeys.some(t => keys.includes(t) || keys.includes(t.replace(/^\//, '')))] *)
Definition containsTarget (h : heap) (targetKeys : list string) (m : value) : bool :=
  let keys := Object_keys h m in
  existsb (fun t => bool_decide (t ∈ keys)
                    || bool_decide (stripLeadingSlash t ∈ keys))
          targetKeys.

Definition targetKeysOf (createdPaths : list string) : list string :=
  foldl (fun targetKeys r => targetKeys ++ [r]) createdPaths PREFERRED_ROOT_FILES.

(** The [while] loop of [waitAndCollectFilesMap] and the code after it;
    [fuel] bounds the number of turns, [None] means it ran out. *)
Fixpoint pollLoop (fuel : nat) (targetKeys : list string)
    (start timeoutMs intervalMs : Z) (w : world)
  : option (result (heap * value) * world) :=
  match fuel with
  | O => None
  | S fuel' =>
      if clock w - start <? timeoutMs then
        let '(r, w1) := sweep w in
        match r with
        | Throw e => Some (Throw e, w1)
        | Ok (h, maps) =>
            match List.find (containsTarget h targetKeys) maps with
            | Some m => Some (Ok (h, m), w1)
            | None =>
                if negb (Nat.eqb (length maps) 0) && Nat.eqb (length targetKeys) 0
                then Some (Ok (h, hd VUndefined maps), w1)
                else pollLoop fuel' targetKeys start timeoutMs intervalMs
                       (sleep intervalMs w1)
            end
        end
      else
        let '(r, w1) := sweep w in
        match r with
        | Throw e => Some (Throw e, w1)
        | Ok (h, maps) => Some (Ok (h, hd VNull maps), w1)
        end
  end.

Definition waitAndCollectFilesMap (fuel : nat) (createdPaths : list string)
    (timeoutMs intervalMs : Z) (w : world)
  : option (result (heap * value) * world) :=
  pollLoop fuel (targetKeysOf createdPaths) (clock w) timeoutMs intervalMs w.

(** [const merged = {}; for (const m of allMaps) Object.assign(merged, m)];
    [merged] is reachable from nowhere else until the loop is over. *)
Definition assign (h : heap) (target : list (string * value)) (m : value)
  : list (string * value) :=
  foldl (fun t k => setProp k (getProp h m k) t) target (Object_keys h m).

Definition mergeAll (h : heap) (allMaps : list value) : heap * value :=
  let '(h', l) := alloc h (OObj (foldl (assign h) [] allMaps)) in
  (h', VRef l).

(** The [// dedupe] loop over [files]. *)
Definition dedupeFilesStep (st : list fileEntry * list string) (f : fileEntry)
  : list fileEntry * list string :=
  let '(out, seen) := st in
  if bool_decide (path f ∈ seen) then st else (out ++ [f], seen ++ [path f]).

Definition dedupeFiles (fs : list fileEntry) : list fileEntry :=
  fst (foldl dedupeFilesStep ([], []) fs).

(** [(createdFilePaths || []).map(...).filter(Boolean)] *)
Definition createdOf (paths : list string) : list string :=
  List.filter (fun p => negb (String.eqb p ""))
    ((fun p => if negb (String.eqb p "") && startsWith p "/" then p
               else if negb (String.eqb p "") then "/" +:+ p else p) <$> paths).

Definition VITE_DYAD_BACKEND_URL (hs : host) : string :=
  match envBackendUrl hs with
  | Some u => if String.eqb u "" then "http://localhost:9999" else u
  | None => "http://localhost:9999"
  end.

(** [prompt(message, default) || undefined] *)
Definition promptOrUndefined (hs : host) (message defaultValue : string)
    (w : world) : option string * world :=
  (match promptUser hs message defaultValue with
   | Some a => if String.eqb a "" then None else Some a
   | None => None
   end, log (Prompted message defaultValue) w).

Definition defaultNameOf (pr : props) (hs : host) : string :=
  match defaultProjectName pr with
  | Some n => if negb (String.eqb n "") then n
              else if negb (String.eqb (documentTitle hs) "") then documentTitle hs
              else "bolt-generated-app"
  | None => if negb (String.eqb (documentTitle hs) "") then documentTitle hs
            else "bolt-generated-app"
  end.

(** The upload, from [setStatus(`Uploading ...`)] to the end of the [try]. *)
Definition upload (pr : props) (hs : host) (h : heap) (out : list fileEntry)
    (w : world) : result unit * world :=
  let w := log (SetStatus ("Uploading " +:+ pretty (length out) +:+ " files...")) w in
  let '(pid, w) := promptOrUndefined hs
                     "Project ID for Dyad (leave blank to auto-generate):"
                     ("bolt-" +:+ randomSuffix hs) w in
  let '(pname, w) := promptOrUndefined hs "Project name:" (defaultNameOf pr hs) w in
  let body := UploadBody pid pname (defaultFramework pr) "bolt-import" out in
  match stringifyBody hs h body with
  | Throw e => (Throw e, w)
  | Ok text =>
      let url := VITE_DYAD_BACKEND_URL hs +:+ "/api/sync/files" in
      let w := log (Fetched url body) w in
      match fetch hs url text with
      | Throw e => (Throw e, w)
      | Ok resp =>
          if negb (ok resp) then
            (Ok tt, log (SetStatus ("Upload failed: " +:+ pretty (status resp)))
                      (log ConsoleError w))
          else
            (Ok tt, log ConsoleLog
                      (log (SetStatus ("Upload complete (" +:+ pretty (length out)
                                       +:+ ").")) w))
      end
  end.

(** The escalation: [if (files.length < 5) { ... }]. *)
Definition escalate (created : list string) (h : heap) (files0 : list fileEntry)
    (w : world) : result (heap * list fileEntry) * world :=
  if (length files0 <? 5)%nat then
    let '(r, w1) := sweep w in
    (let* (h2, allMaps) := r in
     let '(h3, merged) := mergeAll h2 allMaps in
     let* files1 := chooseFilesFromMap h3 merged created in
     Ok (h3, files1),
     w1)
  else (Ok (h, files0), w).

(** The body of the [try] block after the poll loop has returned. *)
Definition afterWait (pr : props) (hs : host) (created : list string)
    (h : heap) (filesMap : value) (w : world) : result unit * world :=
  if negb (truthy filesMap) then
    (Ok tt, log (SetRunning false)
              (log (SetStatus "No snapshot / workspace files found.") w))
  else
    let w := log (SetStatus "Selecting generated files...") w in
    match chooseFilesFromMap h filesMap created with
    | Throw e => (Throw e, w)
    | Ok files0 =>
        match escalate created h files0 w with
        | (Throw e, w) => (Throw e, w)
        | (Ok (h', files1), w) =>
            if Nat.eqb (length files1) 0 then
              (Ok tt, log (SetRunning false)
                        (log (SetStatus "No files matched selection criteria.") w))
            else upload pr hs h' (dedupeFiles files1) w
        end
    end.

(** [catch (err) { ... } finally { setRunning(false) }] *)
Definition catchFinally (c : result unit * world) : world :=
  match c with
  | (Ok _, w) => log (SetRunning false) w
  | (Throw _, w) =>
      log (SetRunning false)
        (log (SetStatus "Error — check console") (log ConsoleError w))
  end.

Definition handleClick (fuel : nat) (pr : props) (hs : host) (w : world)
  : option world :=
  let w := log (SetStatus "Looking for generated files...")
             (log (SetRunning true) w) in
  let created := createdOf (createdFilePaths pr) in
  match waitAndCollectFilesMap fuel created (waitTimeoutMs pr) (waitIntervalMs pr) w with
  | None => None
  | Some (Throw e, w1) => Some (catchFinally (Throw e, w1))
  | Some (Ok (h, filesMap), w1) =>
      Some (catchFinally (afterWait pr hs created h filesMap w1))
  end.

(** ** Reading of "keep the first of each"

    [firstBy f l] keeps, in order, the elements of [l] whose key [f x] has
    not occurred earlier in [l]; it is the yardstick the deduplicating loops
    of the source are compared with.  [pushNew] is one turn of such a loop
    with the set of seen keys read off the output. *)

Fixpoint firstBy {A K} `{EqDecision K} (f : A -> K) (l : list A) : list A :=
  match l with
  | [] => []
  | x :: rest => x :: filter (fun y => f y <> f x) (firstBy f rest)
  end.

Definition pushNew {A K} `{EqDecision K} (f : A -> K) (out : list A) (x : A)
  : list A :=
  if bool_decide (f x ∈ f <$> out) then out else out ++ [x].

(** The rule of tier 2 for one key: some preferred prefix or some root file
    name matches it. *)
Definition tier2Rule (k : string) : bool :=
  existsb (matchesPrefix k) PREFERRED_PREFIXES
  || existsb (matchesRoot k) PREFERRED_ROOT_FILES.

(** The keys a call selects: the first non-empty tier. *)
Definition selectedKeys (keys createdPaths : list string) : list string :=
  if negb (Nat.eqb (length (normalizedCreated keys createdPaths)) 0)
  then normalizedCreated keys createdPaths
  else if negb (Nat.eqb (length (chosenKeys keys)) 0) then chosenKeys keys
  else if negb (Nat.eqb (length (List.filter fallbackPattern keys)) 0)
  then List.filter fallbackPattern keys
  else take 5000 keys.

(** A valid FilesMap in the sense of the data model: a non-array object whose
    key set is not empty. *)
Definition validFilesMap (h : heap) (v : value) : bool :=
  truthy v && typeofObject v && negb (isArray h v)
  && negb (Nat.eqb (length (Object_keys h v)) 0).

(** The events the poll loop can add to the log. *)
Definition pollEvent (intervalMs : Z) (ev : event) : Prop :=
  ev = Swept \/ ev = Slept intervalMs.

(** ** The caller: [app/components/chat/Artifact.tsx]

    The artifact card computes the preferred paths it hands to the button
    and carries a second, smaller upload path of its own behind the header
    button: [readLatestFilesMap] and [postFilesToDyad]. *)

(** An action of the artifact's runner, as far as the card reads it;
    [filePath] and [path] are [undefined] ([None]) or a string. *)
Record action : Type := Action {
  actionType : string;
  actionStatus : string;
  actionFilePath : option string;
  actionPath : option string }.

Definition truthyString (o : option string) : bool :=
  match o with
  | Some s => negb (String.eqb s "")
  | None => false
  end.

(** [a.type === 'file' && (a.filePath || a.path)] *)
Definition isFileAction (a : action) : bool :=
  String.eqb (actionType a) "file"
  && (truthyString (actionFilePath a) || truthyString (actionPath a)).

(** The [.map] callback: [null] is [None]. *)
Definition actionCreatedPath (a : action) : option string :=
  let raw := match actionFilePath a with
             | Some s => Some s
             | None => actionPath a
             end in
  match raw with
  | Some s =>
      if String.eqb s "" then None
      else Some (if startsWith s "/" then s else "/" +:+ s)
  | None => None
  end.

(** [.filter(Boolean)] on strings and [null]. *)
Definition keepTruthyStrings (xs : list (option string)) : list string :=
  flat_map (fun o => match o with
                     | Some s => if String.eqb s "" then [] else [s]
                     | None => []
                     end) xs.

Definition createdFilesFromActions (actions : list action) : list string :=
  keepTruthyStrings (actionCreatedPath <$> List.filter isFileAction actions).

(** The extraction written inline in [readLatestFilesMap]. *)
Definition latestCandidateMap (h : heap) (c : value) : value :=
  let files := getProp h c "files" in
  if truthy files && negb (isArray h files) then files else
  let snapshot := getProp h c "snapshot" in
  let sfiles := getProp h snapshot "files" in
  if truthy snapshot && truthy sfiles && negb (isArray h sfiles) then sfiles else
  if typeofObject c
     && match Object_keys h c with
        | k0 :: _ => startsWith k0 "/home/project"
        | [] => false
        end
  then c else VNull.

(** [e && x] *)
Definition andThen (e x : value) : value := if truthy e then x else e.

(** [[e, e && e.snapshot, e && e.data, e && e.payload]] *)
Definition latestCandidates (h : heap) (e : value) : list value :=
  [ e; andThen e (getProp h e "snapshot"); andThen e (getProp h e "data");
    andThen e (getProp h e "payload") ].

(** [for (const c of cands)]: the first map found, [null] when there is
    none. *)
Fixpoint firstCandidateMap (h : heap) (cands : list value) : value :=
  match cands with
  | [] => VNull
  | c :: rest =>
      if negb (truthy c) || negb (typeofObject c) then firstCandidateMap h rest
      else
        let m := latestCandidateMap h c in
        if truthy m then m else firstCandidateMap h rest
  end.

(** [for (let i = all.length - 1; i >= 0; --i)], entered with [i + 1]. *)
Fixpoint scanLatest (h : heap) (all : list value) (next : nat) : value :=
  match next with
  | O => VNull
  | S i =>
      let m := firstCandidateMap h (latestCandidates h (nth i all VUndefined)) in
      if truthy m then m else scanLatest h all i
  end.

Definition readLatestFilesMap (e : env) : value :=
  if containsStore e "snapshots" then
    let all := readObjectStoreAll e "snapshots" in
    scanLatest (envHeap e) all (length all)
  else VNull.

(** [normalize] of [postFilesToDyad]. *)
Definition postNormalize (h : heap) (raw : value) : value :=
  if nullish raw then VStr "" else
  match raw with
  | VStr _ => raw
  | _ =>
      let c := getProp h raw "content" in
      if truthy c then c else
      let t := getProp h raw "text" in
      if truthy t then t else
      let d := getProp h raw "data" in
      if truthy d then d else
      match JSON_stringify h raw with
      | Ok s => s
      | Throw _ => VStr (toKey h raw)
      end
  end.

(** The loop over [preferredPaths] of [postFilesToDyad]. *)
Definition postPreferredStep (allKeys : list string) (chosen : list string)
    (p : string) : list string :=
  if String.eqb p "" then chosen else
  let withSlash := if startsWith p "/" then p else "/" +:+ p in
  foldl (pushVariant allKeys) chosen [withSlash; stripLeadingSlash withSlash].

(** The test of the fallback loop of [postFilesToDyad]. *)
Definition postFallbackRule (k : string) : bool :=
  startsWith k "/home/project" || startsWith k "home/project" ||
  startsWith k "/project" || startsWith k "src/" || startsWith k "/src" ||
  startsWith k "public/" || startsWith k "/public" ||
  endsWith k "package.json" || endsWith k "index.html".

Definition postChosen (allKeys preferredPaths : list string) : list string :=
  let chosen := foldl (postPreferredStep allKeys) [] preferredPaths in
  if Nat.eqb (length chosen) 0 then
    foldl (fun chosen k => if postFallbackRule k then setAdd k chosen else chosen)
          [] allKeys
  else chosen.

Definition orString (a : option string) (b : string) : string :=
  match a with
  | Some s => if String.eqb s "" then b else s
  | None => b
  end.

(** [postFilesToDyad(filesMap, projectId, projectName, preferredPaths)];
    [title] is [artifact?.title]. *)
Definition postFilesToDyad (hs : host) (title : option string) (h : heap)
    (filesMap : value) (pid pname : option string)
    (preferredPaths : list string) (w : world) : result response * world :=
  let allKeys := if truthy filesMap then Object_keys h filesMap else [] in
  let chosen := postChosen allKeys preferredPaths in
  let payloadFiles :=
    (fun p => FileEntry p (postNormalize h (getProp h filesMap p))) <$> chosen in
  let payload :=
    UploadBody (match pid with
                | Some s => if String.eqb s "" then None else Some s
                | None => None
                end)
               (Some (orString pname
                        (orString title
                           (orString (Some (documentTitle hs)) "bolt-generated-app"))))
               "react" "bolt-import" payloadFiles in
  match stringifyBody hs h payload with
  | Throw e => (Throw e, w)
  | Ok text =>
      let url := VITE_DYAD_BACKEND_URL hs +:+ "/api/sync/files" in
      (fetch hs url text, log (Fetched url payload) w)
  end.

(** Two readings used to state what a sweep keeps: a value is a reference,
    and a heap still holds every object of an earlier one. *)
Definition isReference (v : value) : Prop := exists l : loc, v = VRef l.

Definition heapExtends (h h' : heap) : Prop :=
  forall (l : loc) (o : object), h !! l = Some o -> h' !! l = Some o.

(** What every stage of a sweep keeps of its state [(heap, maps)]: the
    objects of the heap it started from, and only references among the maps. *)
Definition stageKeeps (h0 : heap) (st : heap * list value) : Prop :=
  heapExtends h0 (fst st) /\ Forall isReference (snd st).

(** Readings used to state what the handler sends: an event is a request,
    and a request is well formed for given props and host. *)
Definition isFetched (ev : event) : bool :=
  match ev with
  | Fetched _ _ => true
  | _ => false
  end.

Definition wellFormedRequest (pr : props) (hs : host) (ev : event) : Prop :=
  match ev with
  | Fetched url body =>
      url = VITE_DYAD_BACKEND_URL hs +:+ "/api/sync/files" /\
      files body <> [] /\
      NoDup (path <$> files body) /\
      framework body = defaultFramework pr /\
      template body = "bolt-import"
  | _ => True
  end.

(** A stretch of the log with at most one request, well formed. *)
Definition quietOrOneRequest (pr : props) (hs : host) (evs : list event) : Prop :=
  (length (List.filter isFetched evs) <= 1)%nat /\
  Forall (wellFormedRequest pr hs) evs.

(** The worlds in which the poll loop can start a turn: the one it is
    entered in, and the one a full turn, a sweep and then a sleep, leaves. *)
Inductive turnsFrom (intervalMs : Z) (w : world) : world -> Prop :=
| turns_none : turnsFrom intervalMs w w
| turns_more (ws : world) :
    turnsFrom intervalMs w ws ->
    turnsFrom intervalMs w (sleep intervalMs (advance (sweepMs ws) (log Swept ws))).

(** ** Sample data *)

(** Snapshot records [{files: {...}}] with a project tree, with an empty
    [files] object and with a single file outside every selection rule. *)
Definition projectHeap : heap :=
  <[1%positive := OObj [("files", VRef 2%positive)]]>
  (<[2%positive := OObj [("/home/project/package.json", VStr "{}");
                         ("/home/project/src/App.tsx", VStr "x")]]>
  (<[3%positive := OObj [("files", VRef 4%positive)]]>
  (<[4%positive := OObj []]>
  (<[5%positive := OObj [("README.md", VStr "x")]]>
  (<[6%positive := OObj [("files", VRef 5%positive)]]>
  (<[7%positive := OObj [("files", VRef 2%positive);
                         ("snapshot", VRef 6%positive)]]>
  (<[8%positive := OObj [("a", VStr "x"); ("b", VStr "y")]]> ∅))))))).

(** A second project tree with the keys of the first and other contents. *)
Definition twinHeap : heap :=
  <[9%positive := OObj [("/home/project/package.json", VStr "{ }");
                        ("/home/project/src/App.tsx", VStr "y")]]>
  (<[10%positive := OObj [("files", VRef 9%positive)]]> projectHeap).

(** A map of 5001 files [f0], [f1], ... that no selection rule matches. *)
Definition manyKeys : list string :=
  (fun i : nat => "f" +:+ pretty i) <$> seq 0 (S 5000).

Definition manyHeap : heap :=
  {[ 1%positive := OObj ((fun k => (k, VStr "")) <$> manyKeys) ]}.

Definition noGlobals : windowGlobals :=
  WindowGlobals VUndefined VUndefined VUndefined.

(** The snapshots store holds the README record and the project record. *)
Definition projectEnv : env :=
  Env projectHeap (Some {[ "snapshots" := [VRef 6%positive; VRef 1%positive] ]})
      noGlobals.

(** The snapshots store holds the single record [{files: {"README.md": "x"}}]. *)
Definition readmeEnv : env :=
  Env projectHeap (Some {[ "snapshots" := [VRef 6%positive] ]}) noGlobals.

(** The snapshots store holds the project record, its twin and the README
    record. *)
Definition twinEnv : env :=
  Env twinHeap
      (Some {[ "snapshots" := [VRef 1%positive; VRef 10%positive; VRef 6%positive] ]})
      noGlobals.

(** The database opens and has no object store. *)
Definition emptyEnv : env := Env ∅ (Some ∅) noGlobals.

Definition worldOf (e : env) : world := World 1000 (fun _ => e) 10 [].

Definition sampleProps : props := Props None "react" [] 8000 350.

Definition sampleHost : host :=
  Host None "abc1234" "My app" (fun _ d => Some d)
       (fun _ _ => Ok (Response true 200)) (fun _ _ => Ok "{}").

Definition stringifyStub : heap -> value -> result value :=
  fun _ _ => Ok (VStr "{}").

Definition btoaStub : string -> string := fun s => s.

Definition objectToStringStub : heap -> loc -> string :=
  fun _ _ => "[object Object]".

(** An [ArrayBuffer] of two bytes and a one-byte view of it. *)
Definition binaryHeap : heap :=
  <[1%positive := OBuf [Byte.x41; Byte.x42]]>
  (<[2%positive := OView 1%positive [66]]> ∅).

Definition throwingStringify : heap -> value -> result value :=
  fun _ _ => Throw "cyclic object value".

(** Three entries [{path, content}] of a files store, the first and the
    last with one path, and the array holding them. *)
Definition entriesHeap : heap :=
  <[1%positive := OObj [("path", VStr "src/a.ts"); ("content", VStr "A")]]>
  (<[2%positive := OObj [("path", VStr "b.txt"); ("data", VStr "B")]]>
  (<[3%positive := OObj [("path", VStr "src/a.ts"); ("content", VStr "A2")]]> ∅)).

Definition entriesEnv : env :=
  Env entriesHeap
      (Some {[ "files" := [VRef 1%positive; VRef 2%positive; VRef 3%positive] ]})
      noGlobals.

(** The snapshots store holds the project record and a [null]. *)
Definition brokenEnv : env :=
  Env projectHeap (Some {[ "snapshots" := [VRef 1%positive; VNull] ]}) noGlobals.

(** A map whose keys only the pattern of tier 3 matches. *)
Definition nestedHeap : heap :=
  {[ 1%positive := OObj [("notes.txt", VStr "n"); ("app/src/x.ts", VStr "x")] ]}.

Definition sampleActions : list action :=
  [ Action "file" "complete" (Some "src/a.ts") None;
    Action "file" "complete" (Some "") (Some "src/b.ts");
    Action "shell" "complete" None None;
    Action "file" "running" None (Some "/home/project/c.ts") ].

(** A sample limit on the number of arguments of a call. *)
Definition sampleMaxArguments : nat := 4096.

(** ** Properties *)

(** *** Content normalization *)

Lemma normalizeContent_string h s :
  normalizeContent h (VStr s) = Ok (VStr s).
Proof. reflexivity. Qed.

Lemma normalizeContent_content_field h l props c :
  h !! l = Some (OObj props) ->
  lookupProp "content" props = Some c ->
  nullish c = false ->
  normalizeContent h (VRef l) = Ok c.
Proof.
  intros Hl Hc Hn. unfold normalizeContent; cbn [nullish].
  rewrite Hl. cbn [getProp]. rewrite Hl, Hc. cbn. now rewrite Hn.
Qed.

(** C9: a plain string is returned unchanged, and an object of shape
    [{content: "x"}], wherever it lives in the heap, normalizes to ["x"]. *)
Theorem normalizeContent_round_trip (h : heap) (l : loc) (s x : string) :
  normalizeContent h (VStr s) = Ok (VStr s) /\
  normalizeContent (<[l := OObj [("content", VStr x)]]> h) (VRef l) = Ok (VStr x).
Proof.
  split; [apply normalizeContent_string|].
  eapply normalizeContent_content_field.
  - apply lookup_insert_eq.
  - reflexivity.
  - reflexivity.
Qed.

(** *** The extractor *)

Lemma indexKeys_head n :
  indexKeys (S n) = "0" :: ((fun i : nat => pretty i) <$> seq 1 n).
Proof. reflexivity. Qed.

Lemma Object_keys_truthy h v : Object_keys h v <> [] -> truthy v = true.
Proof.
  destruct v as [| | | |s|]; cbn; try congruence.
  destruct s; cbn; congruence.
Qed.

(** C4: when [r.files] is a non-array object, the extractor returns that very
    reference, whatever else the record holds. *)
Theorem extractFilesMap_files_first (h : heap) (lr lf : loc)
    (fprops : list (string * value)) :
  getProp h (VRef lr) "files" = VRef lf ->
  h !! lf = Some (OObj fprops) ->
  fprops <> [] ->
  extractFilesMap h (VRef lr) = VRef lf.
Proof.
  intros Hfiles Hlf _. unfold extractFilesMap. cbn [truthy typeofObject negb orb].
  rewrite Hfiles. cbn [truthy typeofObject isArray andb].
  now rewrite Hlf.
Qed.

Lemma extractFilesMap_files_first_witness :
  extractFilesMap projectHeap (VRef 7%positive) = VRef 2%positive.
Proof.
  apply (extractFilesMap_files_first projectHeap 7%positive 2%positive
           [("/home/project/package.json", VStr "{}");
            ("/home/project/src/App.tsx", VStr "x")]).
  - reflexivity.
  - reflexivity.
  - discriminate.
Defined.

(** C2 as stated fails: for the record [{files: {}}] the extractor returns
    the empty [files] object, which is neither "no match" nor valid. *)
Lemma extractFilesMap_empty_files :
  extractFilesMap projectHeap (VRef 3%positive) = VRef 4%positive /\
  Object_keys projectHeap (VRef 4%positive) = [] /\
  validFilesMap projectHeap
    (extractFilesMap projectHeap (VRef 3%positive)) = false.
Proof. repeat split; reflexivity. Qed.

Lemma looksLikeProjectKey_zero : looksLikeProjectKey "0" = false.
Proof. reflexivity. Qed.

(** C2, amended: the extractor returns [null] or a reference to a non-array
    object, which is the record's [files], its [snapshot.files], or the
    record itself; in the last case, and only there, the key set is known to
    be non-empty. *)
Theorem extractFilesMap_shape (h : heap) (r : value) :
  extractFilesMap h r = VNull \/
  exists l : loc,
    extractFilesMap h r = VRef l /\
    isArray h (VRef l) = false /\
    (getProp h r "files" = VRef l \/
     getProp h (getProp h r "snapshot") "files" = VRef l \/
     (r = VRef l /\ validFilesMap h r = true)).
Proof.
  unfold extractFilesMap.
  destruct (negb (truthy r) || negb (typeofObject r)) eqn:Hr; [now left|].
  apply orb_false_elim in Hr as [Ht Ho].
  apply negb_false_iff in Ht, Ho.
  destruct (truthy (getProp h r "files") && typeofObject (getProp h r "files")
            && negb (isArray h (getProp h r "files"))) eqn:H1.
  { apply andb_prop in H1 as [H1 Ha]. apply andb_prop in H1 as [Hft Hfo].
    destruct (getProp h r "files") as [| | | | |l] eqn:Hf; try discriminate.
    right. exists l. apply negb_true_iff in Ha. auto. }
  destruct (truthy (getProp h r "snapshot")
            && truthy (getProp h (getProp h r "snapshot") "files")
            && typeofObject (getProp h (getProp h r "snapshot") "files")
            && negb (isArray h (getProp h (getProp h r "snapshot") "files"))) eqn:H2.
  { apply andb_prop in H2 as [H2 Ha]. apply andb_prop in H2 as [H2 Hso].
    apply andb_prop in H2 as [_ Hst].
    destruct (getProp h (getProp h r "snapshot") "files") as [| | | | |l] eqn:Hf;
      cbn in Hso, Hst; try discriminate.
    right. exists l. apply negb_true_iff in Ha. auto. }
  destruct (Object_keys h r) as [|k0 ks] eqn:Hk; [now left|].
  destruct (looksLikeProjectKey k0) eqn:Hlook; [|now left].
  destruct r as [| | | | |l]; cbn in Ho; try discriminate.
  right. exists l. split; [reflexivity|].
  assert (Harr : isArray h (VRef l) = false).
  { cbn in Hk |- *. destruct (h !! l) as [[props|elems|bytes|b elems]|]; try reflexivity.
    destruct elems; [discriminate|].
    rewrite length_cons, indexKeys_head in Hk. injection Hk as <- _.
    now rewrite looksLikeProjectKey_zero in Hlook. }
  split; [exact Harr|]. right; right. split; [reflexivity|].
  unfold validFilesMap. rewrite Harr, Hk. reflexivity.
Qed.

(** *** Loops that keep the first of each *)

Lemma filter_all {A} (P : A -> Prop) `{forall x, Decision (P x)} (l : list A) :
  (forall x, x ∈ l -> P x) -> filter P l = l.
Proof.
  induction l as [|x l IH]; intros Hall; [reflexivity|].
  rewrite filter_cons_True by (apply Hall; left).
  f_equal. apply IH. intros y Hy. apply Hall. now right.
Qed.

Lemma filter_none {A} (P : A -> Prop) `{forall x, Decision (P x)} (l : list A) :
  (forall x, x ∈ l -> ~ P x) -> filter P l = [].
Proof.
  induction l as [|x l IH]; intros Hnone; [reflexivity|].
  rewrite filter_cons_False by (apply Hnone; left).
  apply IH. intros y Hy. apply Hnone. now right.
Qed.

Section FirstBy.

Context {A K : Type} `{EqDecision K} (f : A -> K).

Lemma foldl_pushNew (l out : list A) :
  foldl (pushNew f) out l
  = out ++ filter (fun y => f y ∉ f <$> out) (firstBy f l).
Proof.
  revert out. induction l as [|x l IH]; intros out.
  - cbn [foldl firstBy]. now rewrite filter_nil, app_nil_r.
  - cbn [foldl firstBy]. rewrite IH. unfold pushNew.
    rewrite filter_cons. case_bool_decide as Hx.
    + rewrite decide_False by tauto. f_equal.
      rewrite list_filter_filter. apply list_filter_iff.
      intros y. split; [|tauto]. intros Hy. split; [exact Hy|congruence].
    + rewrite decide_True by exact Hx. rewrite <- app_assoc. cbn. do 2 f_equal.
      rewrite list_filter_filter. apply list_filter_iff.
      intros y. rewrite fmap_app, elem_of_app.
      change (f <$> [x]) with [f x]. rewrite list_elem_of_singleton. tauto.
Qed.

Lemma foldl_pushNew_nil (l : list A) : foldl (pushNew f) [] l = firstBy f l.
Proof.
  rewrite foldl_pushNew. cbn [app]. apply filter_all.
  intros x _. apply not_elem_of_nil.
Qed.

Lemma firstBy_elem_of (l : list A) (x : A) : x ∈ firstBy f l -> x ∈ l.
Proof.
  revert x. induction l as [|y l IH]; intros x; cbn [firstBy]; [trivial|].
  rewrite !elem_of_cons, list_elem_of_filter. intros [->|[_ Hx]]; auto.
Qed.

Lemma firstBy_NoDup_keys (l : list A) : NoDup (f <$> firstBy f l).
Proof.
  induction l as [|x l IH]; cbn [firstBy]; [constructor|].
  rewrite fmap_cons. apply NoDup_cons. split.
  - rewrite list_elem_of_fmap. intros (y & Heq & Hy).
    apply list_elem_of_filter in Hy as [Hne _]. congruence.
  - clear -IH. induction (firstBy f l) as [|y k IHk]; [constructor|].
    rewrite fmap_cons in IH. apply NoDup_cons in IH as [Hy Hk].
    rewrite filter_cons. destruct (decide (f y <> f x)); [|auto].
    rewrite fmap_cons. apply NoDup_cons. split; [|auto].
    rewrite list_elem_of_fmap. intros (z & Heq & Hz).
    apply list_elem_of_filter in Hz as [_ Hz].
    apply Hy. rewrite Heq. now apply list_elem_of_fmap_2.
Qed.

(** Of the elements with a given key, [firstBy] keeps exactly the first. *)
Lemma firstBy_select (l : list A) (k : K) :
  filter (fun y => f y = k) (firstBy f l)
  = option_list (head (filter (fun y => f y = k) l)).
Proof.
  induction l as [|x l IH]; [reflexivity|].
  cbn [firstBy]. rewrite !filter_cons. destruct (decide (f x = k)) as [Hx|Hx].
  - cbn. f_equal. rewrite list_filter_filter.
    apply filter_none. intros y _ [? ?]. congruence.
  - rewrite <- IH, list_filter_filter. apply list_filter_iff.
    intros y. split; [tauto|]. intros Hy. split; [exact Hy|congruence].
Qed.

End FirstBy.

(** *** The aggregator's deduplication *)

Lemma dedupe_foldl h maps out :
  foldl (dedupeStep h) (out, signature h <$> out) maps
  = (foldl (pushNew (signature h)) out maps,
     signature h <$> foldl (pushNew (signature h)) out maps).
Proof.
  revert out. induction maps as [|m maps IH]; intros out; [reflexivity|].
  cbn [foldl]. unfold dedupeStep at 2, pushNew at 2 4.
  case_bool_decide; [apply IH|].
  rewrite <- IH, fmap_app. reflexivity.
Qed.

Lemma dedupe_firstBy h maps : dedupe h maps = firstBy (signature h) maps.
Proof.
  unfold dedupe.
  exact (eq_trans (f_equal fst (dedupe_foldl h maps []))
                  (foldl_pushNew_nil (signature h) maps)).
Qed.

(** C5: of the candidates gathered in one sweep, those sharing a signature
    (the first ten keys joined with commas) are represented in the output by
    exactly one candidate, the first of them in aggregation order; a
    signature no candidate has is not represented. *)
Theorem gatherFilesMaps_dedupe (e : env) (h : heap) (maps : list value) :
  collectMaps e = Ok (h, maps) ->
  exists unique : list value,
    gatherFilesMaps e = Ok (h, unique) /\
    NoDup (signature h <$> unique) /\
    forall sig : string,
      filter (fun u => signature h u = sig) unique
      = option_list (head (filter (fun m => signature h m = sig) maps)).
Proof.
  intros Hc. exists (dedupe h maps). unfold gatherFilesMaps. rewrite Hc. cbn.
  split; [reflexivity|]. rewrite dedupe_firstBy. split.
  - apply firstBy_NoDup_keys.
  - intros sig. apply firstBy_select.
Qed.

(** *** The selection heuristic *)

Lemma mapM_Ok_inv {A B} (f : A -> result B) (l : list A) (out : list B) :
  mapM f l = Ok out -> Forall2 (fun x y => f x = Ok y) l out.
Proof.
  revert out. induction l as [|x l IH]; intros out; cbn.
  - intros [= <-]. constructor.
  - destruct (f x) as [y|] eqn:Hy; cbn; [|discriminate].
    destruct (mapM f l) as [ys|]; cbn; [|discriminate].
    intros [= <-]. constructor; auto.
Qed.

Lemma mapM_Ok_intro {A B} (f : A -> result B) (l : list A) :
  (forall x, x ∈ l -> exists y, f x = Ok y) -> exists out, mapM f l = Ok out.
Proof.
  induction l as [|x l IH]; intros Hall; cbn; [eauto|].
  destruct (Hall x) as [y ->]; [left|]. cbn.
  destruct IH as [ys ->]; [intros z Hz; apply Hall; now right|]. cbn. eauto.
Qed.

Lemma toEntry_Ok_inv h m k e :
  toEntry h m k = Ok e ->
  path e = k /\ normalizeContent h (getProp h m k) = Ok (content e).
Proof.
  unfold toEntry. destruct (normalizeContent h (getProp h m k)) as [c|]; cbn;
    [|discriminate].
  intros [= <-]. auto.
Qed.

Lemma mapM_toEntry_inv h m sel out :
  mapM (toEntry h m) sel = Ok out ->
  path <$> out = sel /\
  forall e, e ∈ out -> normalizeContent h (getProp h m (path e)) = Ok (content e).
Proof.
  intros HF%mapM_Ok_inv. induction HF as [|k e sel out He _ [IH1 IH2]].
  - split; [reflexivity|]. intros e He. now apply elem_of_nil in He.
  - apply toEntry_Ok_inv in He as [Hp Hc]. split.
    + rewrite fmap_cons. congruence.
    + intros e' [->|He']%elem_of_cons; [congruence|auto].
Qed.

Lemma pushVariant_pushNew keys vs acc :
  foldl (pushVariant keys) acc vs
  = foldl (pushNew id) acc (filter (fun v => v ∈ keys) vs).
Proof.
  revert acc. induction vs as [|v vs IH]; intros acc; [reflexivity|].
  cbn [foldl]. rewrite filter_cons, IH. unfold pushVariant at 1.
  destruct (decide (v ∈ keys)) as [Hv|Hv].
  - rewrite (bool_decide_eq_true_2 _ Hv). cbn [andb foldl]. f_equal.
    unfold pushNew. rewrite list_fmap_id. unfold id.
    now destruct (bool_decide (v ∈ acc)).
  - now rewrite (bool_decide_eq_false_2 _ Hv).
Qed.

(** Tier 1 collects the variants of the preferred paths that are keys, in
    the order of the preferred paths, each once. *)
Lemma normalizedCreated_spec keys paths :
  normalizedCreated keys paths
  = firstBy id (filter (fun v => v ∈ keys) (flat_map keyVariants paths)).
Proof.
  unfold normalizedCreated. rewrite <- foldl_pushNew_nil, <- pushVariant_pushNew.
  generalize (@nil string). induction paths as [|p paths IH]; intros acc;
    [reflexivity|].
  cbn [foldl flat_map]. now rewrite foldl_app, IH.
Qed.

Lemma setAdd_pushNew k c : setAdd k c = pushNew id c k.
Proof. unfold setAdd, pushNew. now rewrite list_fmap_id. Qed.

Lemma setAdd_idem k c : setAdd k (setAdd k c) = setAdd k c.
Proof.
  unfold setAdd. destruct (bool_decide (k ∈ c)) eqn:Hk; rewrite ?Hk; [reflexivity|].
  rewrite bool_decide_eq_true_2; [reflexivity|].
  apply elem_of_app. right. now left.
Qed.

Lemma foldl_setAdd_same {B} (P : B -> bool) k (l : list B) c :
  foldl (fun c x => if P x then setAdd k c else c) c l
  = if existsb P l then setAdd k c else c.
Proof.
  revert c. induction l as [|x l IH]; intros c; [reflexivity|].
  cbn [foldl existsb]. rewrite IH. destruct (P x); cbn [orb]; [|reflexivity].
  destruct (existsb P l); [apply setAdd_idem|reflexivity].
Qed.

Lemma chosenStep_rule c k :
  chosenStep c k = if tier2Rule k then setAdd k c else c.
Proof.
  unfold chosenStep, tier2Rule. rewrite !foldl_setAdd_same.
  destruct (existsb (matchesPrefix k) PREFERRED_PREFIXES); cbn [orb];
    [|reflexivity].
  destruct (existsb (matchesRoot k) PREFERRED_ROOT_FILES);
    [apply setAdd_idem|reflexivity].
Qed.

(** Tier 2 collects the keys the rule matches, in enumeration order. *)
Lemma chosenKeys_spec keys :
  chosenKeys keys = firstBy id (filter (fun k => tier2Rule k = true) keys).
Proof.
  unfold chosenKeys. rewrite <- foldl_pushNew_nil.
  generalize (@nil string). induction keys as [|k keys IH]; intros acc;
    [reflexivity|].
  cbn [foldl]. rewrite IH, chosenStep_rule, filter_cons.
  destruct (tier2Rule k) eqn:Hk.
  - rewrite decide_True by reflexivity. cbn [foldl]. now rewrite setAdd_pushNew.
  - now rewrite decide_False by discriminate.
Qed.

Lemma firstBy_id_sub (P : string -> Prop) `{forall x, Decision (P x)}
    (keys : list string) (k : string) :
  k ∈ firstBy id (filter P keys) -> k ∈ keys.
Proof. intros Hk%firstBy_elem_of. now apply list_elem_of_filter in Hk. Qed.

Lemma firstBy_id_sat (P : string -> Prop) `{forall x, Decision (P x)}
    (l : list string) (k : string) :
  k ∈ firstBy id (filter P l) -> P k.
Proof. intros Hk%firstBy_elem_of. now apply list_elem_of_filter in Hk. Qed.

Lemma firstBy_id_NoDup_out (l : list string) : NoDup (firstBy id l).
Proof. rewrite <- (list_fmap_id (firstBy id l)). apply firstBy_NoDup_keys. Qed.

Lemma List_filter_elem_of (P : string -> bool) (keys : list string) (k : string) :
  k ∈ List.filter P keys <-> k ∈ keys /\ P k = true.
Proof. rewrite !list_elem_of_In. apply List.filter_In. Qed.

Lemma chooseFilesFromMap_selected h m paths :
  truthy m = true ->
  chooseFilesFromMap h m paths
  = mapM (toEntry h m) (selectedKeys (Object_keys h m) paths).
Proof.
  intros Hm. unfold chooseFilesFromMap, selectedKeys. rewrite Hm. cbn [negb].
  repeat match goal with |- context [if ?b then _ else _] => destruct b end;
    reflexivity.
Qed.

Lemma selectedKeys_sub keys paths k :
  k ∈ selectedKeys keys paths -> k ∈ keys.
Proof.
  unfold selectedKeys.
  repeat match goal with |- context [if ?b then _ else _] => destruct b end.
  - rewrite normalizedCreated_spec. apply (firstBy_id_sat (fun v => v ∈ keys)).
  - rewrite chosenKeys_spec. apply firstBy_id_sub.
  - intros Hk%List_filter_elem_of. tauto.
  - apply subseteq_take.
Qed.

Lemma selectedKeys_NoDup keys paths :
  NoDup keys -> NoDup (selectedKeys keys paths).
Proof.
  intros Hnd. unfold selectedKeys.
  repeat match goal with |- context [if ?b then _ else _] => destruct b end.
  - rewrite normalizedCreated_spec. apply firstBy_id_NoDup_out.
  - rewrite chosenKeys_spec. apply firstBy_id_NoDup_out.
  - apply NoDup_ListNoDup, List.NoDup_filter, NoDup_ListNoDup, Hnd.
  - eapply sublist_NoDup; [exact Hnd|apply sublist_take].
Qed.

Lemma binaryString_fits h b :
  (forall l bytes, h !! l = Some (OBuf bytes) -> (length bytes <= maxArguments)%nat) ->
  exists s, binaryString h b = Ok s.
Proof.
  intros Hfit. unfold binaryString.
  assert (Hlen : (length (bufferBytes h b) <= maxArguments)%nat).
  { unfold bufferBytes. destruct b as [| | | | |l]; cbn; try lia.
    destruct (h !! l) as [[props|elems|bytes|b' elems]|] eqn:Hl; cbn; try lia.
    eapply Hfit; eauto. }
  apply Nat.leb_le in Hlen. rewrite Hlen. eauto.
Qed.

(** Normalization returns when [JSON.stringify] does and no [ArrayBuffer]
    of the heap has more bytes than a call takes arguments. *)
Lemma normalizeContent_returns h v :
  (forall x, exists s, JSON_stringify h x = Ok s) ->
  (forall l bytes, h !! l = Some (OBuf bytes) -> (length bytes <= maxArguments)%nat) ->
  exists c, normalizeContent h v = Ok c.
Proof.
  intros Hjs Hfit. unfold normalizeContent.
  destruct (nullish v); [eauto|].
  destruct v as [| | | | |l]; eauto.
  destruct (h !! l) as [[props|elems|bytes|b elems]|]; eauto;
    try (repeat match goal with |- context [if ?b then _ else _] => destruct b end;
         eauto; fail).
  - destruct (binaryString_fits h (VRef l) Hfit) as [s ->]. cbn. eauto.
  - destruct (binaryString_fits h
                (if truthy (getProp h (VRef l) "buffer")
                 then getProp h (VRef l) "buffer" else VRef l) Hfit) as [s ->].
    cbn. eauto.
Qed.

(** C10: every entry of the selection has a path that is a key of the map
    and the normalization of the value stored under it as content, and no
    path is selected twice, whichever tier produced the selection.  The call
    returns whenever the normalization of the value of every key does. *)
Theorem chooseFilesFromMap_entries (h : heap) (m : value) (paths : list string) :
  NoDup (Object_keys h m) ->
  ((forall k, k ∈ Object_keys h m ->
              exists c, normalizeContent h (getProp h m k) = Ok c) ->
   exists out, chooseFilesFromMap h m paths = Ok out) /\
  forall out : list fileEntry,
    chooseFilesFromMap h m paths = Ok out ->
    NoDup (path <$> out) /\
    forall e : fileEntry,
      e ∈ out ->
      path e ∈ Object_keys h m /\
      normalizeContent h (getProp h m (path e)) = Ok (content e).
Proof.
  intros Hnd. destruct (truthy m) eqn:Hm.
  2:{ unfold chooseFilesFromMap. rewrite Hm. cbn [negb]. split; [eauto|].
      intros out [= <-]. split; [constructor|].
      intros e He. now apply elem_of_nil in He. }
  rewrite chooseFilesFromMap_selected by exact Hm. split.
  - intros Hall. apply mapM_Ok_intro. intros k Hk. unfold toEntry.
    destruct (Hall k) as [c ->]; [eapply selectedKeys_sub; exact Hk|]. cbn. eauto.
  - intros out [Hp Hc]%mapM_toEntry_inv. split.
    + rewrite Hp. now apply selectedKeys_NoDup.
    + intros e He. split; [|auto].
      apply (selectedKeys_sub _ paths). rewrite <- Hp. now apply list_elem_of_fmap_2.
Qed.

Lemma existsb_false_intro {B} (P : B -> bool) (l : list B) :
  (forall x, x ∈ l -> P x = false) -> existsb P l = false.
Proof.
  induction l as [|x l IH]; intros Hall; [reflexivity|].
  cbn. rewrite (Hall x) by left. apply IH. intros y Hy. apply Hall. now right.
Qed.

Lemma selectedKeys_last_resort keys paths :
  (forall p v, p ∈ paths -> v ∈ keyVariants p -> v ∉ keys) ->
  (forall k pref, k ∈ keys -> pref ∈ PREFERRED_PREFIXES -> matchesPrefix k pref = false) ->
  (forall k root, k ∈ keys -> root ∈ PREFERRED_ROOT_FILES -> matchesRoot k root = false) ->
  (forall k, k ∈ keys -> fallbackPattern k = false) ->
  selectedKeys keys paths = take 5000 keys.
Proof.
  intros H1 H2p H2r H3. unfold selectedKeys.
  assert (E1 : normalizedCreated keys paths = []).
  { rewrite normalizedCreated_spec, filter_none; [reflexivity|].
    intros v Hv Hk. apply list_elem_of_In, in_flat_map in Hv as (p & Hp & Hv).
    apply list_elem_of_In in Hp, Hv. exact (H1 p v Hp Hv Hk). }
  assert (E2 : chosenKeys keys = []).
  { rewrite chosenKeys_spec, filter_none; [reflexivity|].
    intros k Hk. unfold tier2Rule.
    rewrite !existsb_false_intro; [discriminate|auto|auto]. }
  assert (E3 : List.filter fallbackPattern keys = []).
  { destruct (List.filter fallbackPattern keys) as [|k ks] eqn:E; [reflexivity|].
    assert (Hk : k ∈ List.filter fallbackPattern keys) by (rewrite E; left).
    apply List_filter_elem_of in Hk as [Hk Hf]. rewrite H3 in Hf by exact Hk.
    discriminate. }
  now rewrite E1, E2, E3.
Qed.

(** C7: a map with more than 5000 keys, none of them a spelling of a
    preferred path, none matched by a tier-2 prefix or root file name, none
    matched by the tier-3 pattern, is answered with its first 5000 keys in
    enumeration order, each with its normalized content. *)
Theorem chooseFilesFromMap_last_resort (h : heap) (m : value) (paths : list string) :
  (5000 < length (Object_keys h m))%nat ->
  (forall p v, p ∈ paths -> v ∈ keyVariants p -> v ∉ Object_keys h m) ->
  (forall k pref, k ∈ Object_keys h m -> pref ∈ PREFERRED_PREFIXES ->
                  matchesPrefix k pref = false) ->
  (forall k root, k ∈ Object_keys h m -> root ∈ PREFERRED_ROOT_FILES ->
                  matchesRoot k root = false) ->
  (forall k, k ∈ Object_keys h m -> fallbackPattern k = false) ->
  chooseFilesFromMap h m paths
  = mapM (toEntry h m) (take 5000 (Object_keys h m)) /\
  ((forall k, k ∈ take 5000 (Object_keys h m) ->
              exists c, normalizeContent h (getProp h m k) = Ok c) ->
   exists out, chooseFilesFromMap h m paths = Ok out) /\
  forall out : list fileEntry,
    chooseFilesFromMap h m paths = Ok out ->
    path <$> out = take 5000 (Object_keys h m) /\
    length out = 5000%nat /\
    forall e : fileEntry,
      e ∈ out -> normalizeContent h (getProp h m (path e)) = Ok (content e).
Proof.
  intros Hlen H1 H2p H2r H3.
  assert (Hm : truthy m = true).
  { apply (Object_keys_truthy h). intros E. rewrite E in Hlen. cbn in Hlen. lia. }
  rewrite chooseFilesFromMap_selected by exact Hm.
  rewrite selectedKeys_last_resort by assumption.
  split; [reflexivity|]. split.
  - intros Hall. apply mapM_Ok_intro. intros k Hk. unfold toEntry.
    destruct (Hall k Hk) as [c ->]. cbn. eauto.
  - intros out [Hp Hc]%mapM_toEntry_inv. split; [exact Hp|]. split; [|exact Hc].
    rewrite <- (length_fmap path), Hp, length_take. lia.
Qed.

Lemma mapM_singleton {A B} (f : A -> result B) (x : A) :
  mapM f [x] = (let* y := f x in Ok [y]).
Proof. cbn. now destruct (f x). Qed.

Lemma toEntry_singleton h m a :
  mapM (toEntry h m) [a]
  = (let* c := normalizeContent h (getProp h m a) in Ok [FileEntry a c]).
Proof.
  rewrite mapM_singleton. unfold toEntry.
  now destruct (normalizeContent h (getProp h m a)).
Qed.

Lemma keyVariants_plain a :
  a <> "" -> startsWith a "/" = false -> keyVariants a = [a; "/" +:+ a].
Proof.
  intros Ha Hs. unfold keyVariants. rewrite Hs.
  destruct (String.eqb_spec a ""); [contradiction|reflexivity].
Qed.

Lemma keyVariants_slashed a : keyVariants ("/" +:+ a) = ["/" +:+ a; a].
Proof. unfold keyVariants, startsWith. cbn. now destruct a. Qed.

(** C3: with key [a] present and [/a] absent, the preferred path [a] and the
    preferred path [/a] both select exactly the entry at key [a]; and as soon
    as some spelling of some preferred path is a key, the selection is the
    spellings that are keys, in preferred-path order and each once, with no
    entry from the later tiers. *)
Theorem chooseFilesFromMap_preferred (h : heap) (m : value) (a : string)
    (paths : list string) :
  (a <> "" -> startsWith a "/" = false ->
   a ∈ Object_keys h m -> "/" +:+ a ∉ Object_keys h m ->
   chooseFilesFromMap h m [a]
   = (let* c := normalizeContent h (getProp h m a) in Ok [FileEntry a c]) /\
   chooseFilesFromMap h m ["/" +:+ a]
   = (let* c := normalizeContent h (getProp h m a) in Ok [FileEntry a c])) /\
  ((exists p v, p ∈ paths /\ v ∈ keyVariants p /\ v ∈ Object_keys h m) ->
   chooseFilesFromMap h m paths
   = mapM (toEntry h m)
       (firstBy id (filter (fun v => v ∈ Object_keys h m)
                           (flat_map keyVariants paths)))).
Proof.
  assert (Hsel : forall ps,
    normalizedCreated (Object_keys h m) ps <> [] ->
    chooseFilesFromMap h m ps
    = mapM (toEntry h m) (normalizedCreated (Object_keys h m) ps)).
  { intros ps Hne.
    assert (Hm : truthy m = true).
    { apply (Object_keys_truthy h). intros E. rewrite E in Hne.
      rewrite normalizedCreated_spec in Hne. apply Hne.
      rewrite filter_none; [reflexivity|]. intros v _ Hv. now apply elem_of_nil in Hv. }
    rewrite chooseFilesFromMap_selected by exact Hm. unfold selectedKeys.
    destruct (normalizedCreated (Object_keys h m) ps); [contradiction|reflexivity]. }
  split.
  - intros Ha Hs Hin Hout.
    assert (Hne : "/" +:+ a <> a).
    { intros E. rewrite E in Hout. contradiction. }
    rewrite <- toEntry_singleton. split.
    + assert (E : normalizedCreated (Object_keys h m) [a] = [a]).
      { rewrite normalizedCreated_spec. cbn [flat_map].
        rewrite keyVariants_plain by assumption. cbn [app].
        rewrite filter_cons_True, filter_cons_False, filter_nil by assumption.
        reflexivity. }
      rewrite Hsel; rewrite E; [reflexivity|discriminate].
    + assert (E : normalizedCreated (Object_keys h m) ["/" +:+ a] = [a]).
      { rewrite normalizedCreated_spec. cbn [flat_map].
        rewrite keyVariants_slashed. cbn [app].
        rewrite filter_cons_False, filter_cons_True, filter_nil by assumption.
        reflexivity. }
      rewrite Hsel; rewrite E; [reflexivity|discriminate].
  - intros (p & v & Hp & Hv & Hk). rewrite <- normalizedCreated_spec.
    apply Hsel. rewrite normalizedCreated_spec.
    assert (Hin : v ∈ filter (fun v => v ∈ Object_keys h m) (flat_map keyVariants paths)).
    { apply list_elem_of_filter. split; [exact Hk|].
      apply list_elem_of_In, in_flat_map. exists p.
      split; now apply list_elem_of_In. }
    destruct (filter _ (flat_map keyVariants paths)); [now apply elem_of_nil in Hin|].
    discriminate.
Qed.

(** *** The poll loop *)

Lemma targetKeysOf_app created :
  targetKeysOf created = created ++ PREFERRED_ROOT_FILES.
Proof.
  unfold targetKeysOf. generalize PREFERRED_ROOT_FILES. intros roots.
  revert created. induction roots as [|r roots IH]; intros created; cbn [foldl].
  - now rewrite app_nil_r.
  - rewrite IH, <- app_assoc. reflexivity.
Qed.

(** The list of target keys always holds the root file names, so the test
    [targetKeys.length === 0] of the poll loop never succeeds. *)
Lemma targetKeysOf_nonempty created :
  Nat.eqb (length (targetKeysOf created)) 0 = false.
Proof.
  rewrite targetKeysOf_app, length_app. cbn [PREFERRED_ROOT_FILES length].
  apply Nat.eqb_neq. lia.
Qed.

(** A turn of the loop that finds no candidate holding a target key goes to
    sleep, whether or not candidates exist and whatever the preferred paths. *)
Lemma pollLoop_turn_without_target fuel created start timeoutMs intervalMs w h maps :
  clock w - start < timeoutMs ->
  gatherFilesMaps (timeline w (clock w)) = Ok (h, maps) ->
  List.find (containsTarget h (targetKeysOf created)) maps = None ->
  pollLoop (S fuel) (targetKeysOf created) start timeoutMs intervalMs w
  = pollLoop fuel (targetKeysOf created) start timeoutMs intervalMs
      (sleep intervalMs (advance (sweepMs w) (log Swept w))).
Proof.
  intros Ht Hg Hf. cbn [pollLoop]. apply Z.ltb_lt in Ht. rewrite Ht.
  unfold sweep. rewrite Hg, Hf, targetKeysOf_nonempty, andb_false_r. reflexivity.
Qed.

Lemma pollLoop_events fuel targetKeys start timeoutMs intervalMs w r w' :
  pollLoop fuel targetKeys start timeoutMs intervalMs w = Some (r, w') ->
  exists polls,
    events w' = events w ++ polls /\ Forall (pollEvent intervalMs) polls.
Proof.
  revert w. induction fuel as [|fuel IH]; intros w; cbn [pollLoop]; [discriminate|].
  assert (Hone : exists polls, events (advance (sweepMs w) (log Swept w))
                               = events w ++ polls
                               /\ Forall (pollEvent intervalMs) polls).
  { exists [Swept]. split; [reflexivity|]. constructor; [now left|constructor]. }
  unfold sweep.
  destruct (clock w - start <? timeoutMs).
  - destruct (gatherFilesMaps (timeline w (clock w))) as [[h maps]|e].
    + destruct (List.find _ maps).
      * intros [= <- <-]. exact Hone.
      * destruct (negb (Nat.eqb (length maps) 0) && Nat.eqb (length targetKeys) 0).
        -- intros [= <- <-]. exact Hone.
        -- intros (polls & Hev & Hall)%IH. cbn in Hev.
           exists ([Swept; Slept intervalMs] ++ polls). split.
           ++ rewrite Hev, <- !app_assoc. reflexivity.
           ++ apply Forall_app. split; [|exact Hall].
              constructor; [now left|]. constructor; [now right|constructor].
    + intros [= <- <-]. exact Hone.
  - destruct (gatherFilesMaps (timeline w (clock w))) as [[h maps]|e];
      intros [= <- <-]; exact Hone.
Qed.

(** When no sweep finds a candidate the loop comes to its end and returns
    [null], provided time passes from one turn to the next. *)
Lemma pollLoop_no_candidates fuel targetKeys start timeoutMs intervalMs w :
  (forall t, exists h, gatherFilesMaps (timeline w t) = Ok (h, [])) ->
  0 <= sweepMs w ->
  0 < sweepMs w + Z.max 0 intervalMs ->
  timeoutMs - (clock w - start)
    <= (Z.of_nat fuel - 1) * (sweepMs w + Z.max 0 intervalMs) ->
  (0 < fuel)%nat ->
  exists h w',
    pollLoop fuel targetKeys start timeoutMs intervalMs w = Some (Ok (h, VNull), w').
Proof.
  revert w. induction fuel as [|fuel IH]; intros w Hempty Hs Hstep Hrem Hfuel; [lia|].
  cbn [pollLoop]. unfold sweep.
  destruct (Hempty (clock w)) as [h Hg]. rewrite Hg. cbn [List.find length Nat.eqb negb andb hd].
  destruct (Z.ltb_spec (clock w - start) timeoutMs) as [Hlt|Hge]; [|eauto].
  apply IH; cbn; try assumption; nia.
Qed.

(** When every sweep comes back empty and time passes between turns, the
    poll loop ends and returns [null]. *)
Lemma waitAndCollectFilesMap_no_candidates created timeoutMs intervalMs w :
  (forall t, exists h, gatherFilesMaps (timeline w t) = Ok (h, [])) ->
  0 <= sweepMs w ->
  0 < sweepMs w + Z.max 0 intervalMs ->
  exists fuel h w',
    waitAndCollectFilesMap fuel created timeoutMs intervalMs w
    = Some (Ok (h, VNull), w').
Proof.
  intros Hempty Hs Hstep.
  set (step := sweepMs w + Z.max 0 intervalMs) in *.
  exists (Z.to_nat (timeoutMs / step) + 2)%nat.
  apply pollLoop_no_candidates; try assumption; [|lia].
  fold step. rewrite Z.sub_diag, Z.sub_0_r.
  destruct (Z.le_gt_cases timeoutMs 0) as [Hneg|Hpos].
  - assert (0 <= Z.of_nat (Z.to_nat (timeoutMs / step))) by lia. nia.
  - pose proof (Z.div_mod timeoutMs step ltac:(lia)) as Hdm.
    pose proof (Z.mod_pos_bound timeoutMs step Hstep) as Hmod.
    assert (0 <= timeoutMs / step) by (apply Z.div_pos; lia).
    rewrite Nat2Z.inj_add, Z2Nat.id by assumption. nia.
Qed.

(** *** The click handler *)

(** C8: when the poll loop returns [null], the handler sets the status to
    the no-files message, stops running, and ends: between the click and the
    end the log holds only sweeps, sleeps and state updates, and no request
    was sent. *)
Theorem handleClick_no_files (fuel : nat) (pr : props) (hs : host) (w w1 : world)
    (h : heap) :
  waitAndCollectFilesMap fuel (createdOf (createdFilePaths pr))
    (waitTimeoutMs pr) (waitIntervalMs pr)
    (log (SetStatus "Looking for generated files...") (log (SetRunning true) w))
  = Some (Ok (h, VNull), w1) ->
  exists (w' : world) (polls : list event),
    handleClick fuel pr hs w = Some w' /\
    events w'
    = events w
      ++ [SetRunning true; SetStatus "Looking for generated files..."]
      ++ polls
      ++ [SetStatus "No snapshot / workspace files found.";
          SetRunning false; SetRunning false] /\
    Forall (pollEvent (waitIntervalMs pr)) polls /\
    forall url body, Fetched url body ∉ polls.
Proof.
  intros Hw. unfold handleClick. rewrite Hw.
  apply pollLoop_events in Hw as (polls & Hev & Hall). cbn in Hev.
  eexists. exists polls. split; [reflexivity|]. split; [|split].
  - cbn. rewrite Hev, <- !app_assoc. reflexivity.
  - exact Hall.
  - intros url body Hin. rewrite Forall_forall in Hall.
    destruct (Hall _ Hin) as [?|?]; discriminate.
Qed.

(** *** Assignment to properties and the merged map *)

Lemma lookupProp_cons k k' v props :
  lookupProp k ((k', v) :: props)
  = if String.eqb k' k then Some v else lookupProp k props.
Proof. unfold lookupProp. cbn. now destruct (String.eqb k' k). Qed.

Lemma lookupProp_None k props : lookupProp k props = None <-> k ∉ fst <$> props.
Proof.
  induction props as [|[k' v] props IH].
  - split; [intros _ H; now apply elem_of_nil in H|reflexivity].
  - rewrite lookupProp_cons, fmap_cons, elem_of_cons. cbn [fst].
    destruct (String.eqb_spec k' k) as [->|Hne].
    + split; [discriminate|]. intros H. exfalso. apply H. now left.
    + rewrite IH. split; [intros H [E|E]; [congruence|contradiction]|tauto].
Qed.

Lemma lookupProp_replaceProp k k' v props :
  lookupProp k' props <> None ->
  lookupProp k (replaceProp k' v props)
  = if String.eqb k' k then Some v else lookupProp k props.
Proof.
  induction props as [|[k0 v0] props IH]; [intros H; now contradiction H|].
  rewrite lookupProp_cons. cbn [replaceProp].
  destruct (String.eqb_spec k0 k') as [->|Hne0].
  - intros _. rewrite !lookupProp_cons. now destruct (String.eqb k' k).
  - intros Hin. rewrite !lookupProp_cons, IH by exact Hin.
    destruct (String.eqb_spec k0 k) as [->|Hne]; [|reflexivity].
    destruct (String.eqb_spec k' k); [congruence|reflexivity].
Qed.

Lemma keys_replaceProp k v props :
  fst <$> replaceProp k v props = fst <$> props.
Proof.
  induction props as [|[k0 v0] props IH]; [reflexivity|].
  cbn [replaceProp]. destruct (String.eqb k0 k); rewrite !fmap_cons; cbn [fst];
    [reflexivity|now rewrite IH].
Qed.

Lemma lookupProp_insertIndexProp n k k' v props :
  lookupProp k' props = None ->
  lookupProp k (insertIndexProp n k' v props)
  = if String.eqb k' k then Some v else lookupProp k props.
Proof.
  induction props as [|[k0 v0] props IH]; intros Hnone.
  - cbn [insertIndexProp]. now rewrite lookupProp_cons.
  - rewrite lookupProp_cons in Hnone.
    destruct (String.eqb_spec k0 k') as [->|Hne0]; [discriminate|].
    cbn [insertIndexProp].
    destruct (arrayIndex k0) as [n'|]; [destruct (n' <? n)%N|];
      rewrite ?lookupProp_cons; try reflexivity.
    rewrite IH by exact Hnone.
    destruct (String.eqb_spec k0 k) as [->|Hne]; [|reflexivity].
    destruct (String.eqb_spec k' k); [congruence|reflexivity].
Qed.

Lemma keys_insertIndexProp n k v props :
  fst <$> insertIndexProp n k v props ≡ₚ k :: (fst <$> props).
Proof.
  induction props as [|[k0 v0] props IH]; [reflexivity|].
  cbn [insertIndexProp].
  destruct (arrayIndex k0) as [n'|]; [destruct (n' <? n)%N|]; try reflexivity.
  rewrite !fmap_cons, IH. cbn [fst]. apply Permutation_swap.
Qed.

Lemma lookupProp_snoc k k' v props :
  lookupProp k' props = None ->
  lookupProp k (props ++ [(k', v)])
  = if String.eqb k' k then Some v else lookupProp k props.
Proof.
  induction props as [|[k0 v0] props IH]; intros Hnone.
  - cbn [app]. now rewrite lookupProp_cons.
  - rewrite lookupProp_cons in Hnone.
    destruct (String.eqb_spec k0 k') as [->|Hne0]; [discriminate|].
    cbn [app]. rewrite !lookupProp_cons, IH by exact Hnone.
    destruct (String.eqb_spec k0 k) as [->|Hne]; [|reflexivity].
    destruct (String.eqb_spec k' k); [congruence|reflexivity].
Qed.

(** Reading back after [props[k'] = v]. *)
Lemma lookupProp_setProp k k' v props :
  lookupProp k (setProp k' v props)
  = if String.eqb k' k then Some v else lookupProp k props.
Proof.
  unfold setProp. destruct (lookupProp k' props) eqn:Hk'.
  - apply lookupProp_replaceProp. congruence.
  - destruct (arrayIndex k').
    + now apply lookupProp_insertIndexProp.
    + now apply lookupProp_snoc.
Qed.

Lemma keys_setProp k v props :
  fst <$> setProp k v props
  ≡ₚ if bool_decide (k ∈ fst <$> props) then fst <$> props else k :: (fst <$> props).
Proof.
  unfold setProp. destruct (lookupProp k props) eqn:Hk.
  - rewrite bool_decide_eq_true_2, keys_replaceProp; [reflexivity|].
    destruct (decide (k ∈ fst <$> props)) as [?|Hn]; [assumption|].
    apply lookupProp_None in Hn. congruence.
  - rewrite bool_decide_eq_false_2 by now apply lookupProp_None.
    destruct (arrayIndex k).
    + apply keys_insertIndexProp.
    + rewrite fmap_app. cbn. symmetry. apply Permutation_cons_append.
Qed.

Lemma setProp_NoDup k v props :
  NoDup (fst <$> props) -> NoDup (fst <$> setProp k v props).
Proof.
  intros Hnd. rewrite keys_setProp. case_bool_decide; [assumption|].
  now apply NoDup_cons.
Qed.

Lemma setProp_keys_elem k k' v props :
  k ∈ fst <$> setProp k' v props <-> k = k' \/ k ∈ fst <$> props.
Proof.
  rewrite keys_setProp. case_bool_decide as Hk'.
  - split; [tauto|]. intros [->|?]; assumption.
  - apply elem_of_cons.
Qed.

Lemma assign_keys_lookup h m k (ks : list string) (t : list (string * value)) :
  lookupProp k (foldl (fun t k' => setProp k' (getProp h m k') t) t ks)
  = if bool_decide (k ∈ ks) then Some (getProp h m k) else lookupProp k t.
Proof.
  revert t. induction ks as [|k' ks IH]; intros t; [reflexivity|].
  cbn [foldl]. rewrite IH, lookupProp_setProp.
  destruct (String.eqb_spec k' k) as [->|Hne].
  - rewrite (bool_decide_eq_true_2 (k ∈ k :: ks)) by left.
    now destruct (bool_decide (k ∈ ks)).
  - destruct (decide (k ∈ ks)) as [Hk|Hk].
    + rewrite !bool_decide_eq_true_2; [reflexivity|now right|assumption].
    + rewrite !bool_decide_eq_false_2; [reflexivity| |assumption].
      intros [E|E]%elem_of_cons; [congruence|contradiction].
Qed.

(** After [Object.assign(target, m)] a key of [m] reads as in [m], any other
    key as before. *)
Lemma lookupProp_assign h t m k :
  lookupProp k (assign h t m)
  = if bool_decide (k ∈ Object_keys h m) then Some (getProp h m k)
    else lookupProp k t.
Proof. apply assign_keys_lookup. Qed.

Lemma assign_NoDup h t m :
  NoDup (fst <$> t) -> NoDup (fst <$> assign h t m).
Proof.
  unfold assign. generalize (Object_keys h m). intros ks. revert t.
  induction ks as [|k ks IH]; intros t Hnd; [exact Hnd|].
  cbn [foldl]. apply IH. now apply setProp_NoDup.
Qed.

Lemma assign_keys_elem h t m k :
  k ∈ fst <$> assign h t m <-> k ∈ Object_keys h m \/ k ∈ fst <$> t.
Proof.
  unfold assign. generalize (Object_keys h m). intros ks. revert t.
  induction ks as [|k' ks IH]; intros t; cbn [foldl].
  - rewrite elem_of_nil. tauto.
  - rewrite IH, setProp_keys_elem, elem_of_cons. tauto.
Qed.

Lemma last_filter_cons {B} (P : B -> Prop) `{forall x, Decision (P x)} x (l : list B) :
  last (filter P (x :: l))
  = match last (filter P l) with
    | Some y => Some y
    | None => if decide (P x) then Some x else None
    end.
Proof.
  rewrite filter_cons. destruct (decide (P x)); [|now destruct (last (filter P l))].
  destruct (filter P l) as [|y k] eqn:E; [reflexivity|].
  change (last (x :: y :: k)) with (last (y :: k)).
  destruct (last (y :: k)) eqn:El; [reflexivity|].
  now apply last_None in El.
Qed.

(** The merged map: a key reads as in the last candidate that has it. *)
Lemma lookupProp_merged h allMaps k t :
  lookupProp k (foldl (assign h) t allMaps)
  = match last (filter (fun m => k ∈ Object_keys h m) allMaps) with
    | Some m => Some (getProp h m k)
    | None => lookupProp k t
    end.
Proof.
  revert t. induction allMaps as [|m maps IH]; intros t; [reflexivity|].
  cbn [foldl]. rewrite IH, last_filter_cons, lookupProp_assign.
  destruct (last (filter _ maps)); [reflexivity|].
  destruct (decide (k ∈ Object_keys h m)) as [Hk|Hk].
  - now rewrite bool_decide_eq_true_2.
  - now rewrite bool_decide_eq_false_2.
Qed.

Lemma merged_NoDup h allMaps t :
  NoDup (fst <$> t) -> NoDup (fst <$> foldl (assign h) t allMaps).
Proof.
  revert t. induction allMaps as [|m maps IH]; intros t Hnd; [exact Hnd|].
  cbn [foldl]. apply IH. now apply assign_NoDup.
Qed.

Lemma merged_keys_elem h allMaps t k :
  k ∈ fst <$> foldl (assign h) t allMaps
  <-> (exists m, m ∈ allMaps /\ k ∈ Object_keys h m) \/ k ∈ fst <$> t.
Proof.
  revert t. induction allMaps as [|m maps IH]; intros t; cbn [foldl].
  - split; [tauto|]. intros [(m & Hm & _)|?]; [now apply elem_of_nil in Hm|assumption].
  - rewrite IH, assign_keys_elem. split.
    + intros [(m' & Hm' & Hk)|[Hk|Hk]]; [left|left|right; exact Hk].
      * exists m'. split; [now right|exact Hk].
      * exists m. split; [now left|exact Hk].
    + intros [(m' & [->|Hm']%elem_of_cons & Hk)|Hk]; [tauto| |tauto].
      left. eauto.
Qed.

Lemma firstBy_NoDup_id {A K} `{EqDecision K} (f : A -> K) (l : list A) :
  NoDup (f <$> l) -> firstBy f l = l.
Proof.
  induction l as [|x l IH]; [reflexivity|].
  rewrite fmap_cons. intros [Hx Hl]%NoDup_cons. cbn [firstBy].
  rewrite IH by exact Hl. f_equal.
  apply filter_all. intros y Hy Heq. apply Hx. rewrite <- Heq.
  now apply list_elem_of_fmap_2.
Qed.

Lemma dedupeFiles_foldl fs out :
  foldl dedupeFilesStep (out, path <$> out) fs
  = (foldl (pushNew path) out fs, path <$> foldl (pushNew path) out fs).
Proof.
  revert out. induction fs as [|x fs IH]; intros out; [reflexivity|].
  cbn [foldl]. unfold dedupeFilesStep at 2, pushNew at 2 4.
  case_bool_decide; [apply IH|].
  rewrite <- IH, fmap_app. reflexivity.
Qed.

(** The handler's own deduplication keeps the first entry of each path. *)
Lemma dedupeFiles_firstBy fs : dedupeFiles fs = firstBy path fs.
Proof.
  unfold dedupeFiles.
  exact (eq_trans (f_equal fst (dedupeFiles_foldl fs []))
                  (foldl_pushNew_nil path fs)).
Qed.

Lemma chooseFilesFromMap_NoDup_paths h m paths out :
  NoDup (Object_keys h m) ->
  chooseFilesFromMap h m paths = Ok out ->
  NoDup (path <$> out).
Proof.
  intros Hnd. destruct (truthy m) eqn:Hm.
  - rewrite chooseFilesFromMap_selected by exact Hm.
    intros [Hp _]%mapM_toEntry_inv. rewrite Hp. now apply selectedKeys_NoDup.
  - unfold chooseFilesFromMap. rewrite Hm. intros [= <-]. constructor.
Qed.

Lemma mergeAll_spec h allMaps :
  exists l : loc,
    mergeAll h allMaps
    = (<[l := OObj (foldl (assign h) [] allMaps)]> h, VRef l) /\
    Object_keys (<[l := OObj (foldl (assign h) [] allMaps)]> h) (VRef l)
    = fst <$> foldl (assign h) [] allMaps /\
    forall k,
      getProp (<[l := OObj (foldl (assign h) [] allMaps)]> h) (VRef l) k
      = default VUndefined (lookupProp k (foldl (assign h) [] allMaps)).
Proof.
  exists (fresh (dom h)). split; [reflexivity|]. cbn [Object_keys getProp].
  rewrite lookup_insert_eq. split; [reflexivity|]. intros k. reflexivity.
Qed.

(** C6: when the selection on the chosen candidate has fewer than five
    entries, the handler sweeps again, builds one merged map in which every
    key of every candidate is present and reads as in the last candidate, in
    aggregation order, that has it, runs the selection on the merged map with
    the same preferred paths, and goes on with that result alone: the
    no-match message when it is empty, the upload of exactly these entries
    otherwise. *)
Theorem handleClick_escalation (fuel : nat) (pr : props) (hs : host)
    (w w1 : world) (h h2 : heap) (filesMap : value)
    (files0 : list fileEntry) (allMaps : list value) :
  waitAndCollectFilesMap fuel (createdOf (createdFilePaths pr))
    (waitTimeoutMs pr) (waitIntervalMs pr)
    (log (SetStatus "Looking for generated files...") (log (SetRunning true) w))
  = Some (Ok (h, filesMap), w1) ->
  truthy filesMap = true ->
  chooseFilesFromMap h filesMap (createdOf (createdFilePaths pr)) = Ok files0 ->
  (length files0 < 5)%nat ->
  gatherFilesMaps (timeline w1 (clock w1)) = Ok (h2, allMaps) ->
  exists (h3 : heap) (merged : value),
    mergeAll h2 allMaps = (h3, merged) /\
    (forall k, k ∈ Object_keys h3 merged
               <-> exists m, m ∈ allMaps /\ k ∈ Object_keys h2 m) /\
    (forall k, getProp h3 merged k
               = match last (filter (fun m => k ∈ Object_keys h2 m) allMaps) with
                 | Some m => getProp h2 m k
                 | None => VUndefined
                 end) /\
    handleClick fuel pr hs w
    = Some (catchFinally
        (let w2 := advance (sweepMs w1)
                     (log Swept (log (SetStatus "Selecting generated files...") w1)) in
         match chooseFilesFromMap h3 merged (createdOf (createdFilePaths pr)) with
         | Throw e => (Throw e, w2)
         | Ok files1 =>
             if Nat.eqb (length files1) 0 then
               (Ok tt, log (SetRunning false)
                         (log (SetStatus "No files matched selection criteria.") w2))
             else upload pr hs h3 files1 w2
         end)).
Proof.
  intros Hw Ht Hsel Hlen Hg.
  destruct (mergeAll_spec h2 allMaps) as (l & Hmerge & Hkeys & Hget).
  eexists. exists (VRef l). split; [exact Hmerge|]. split; [|split].
  - intros k. rewrite Hkeys, merged_keys_elem. cbn.
    rewrite elem_of_nil. tauto.
  - intros k. rewrite Hget, lookupProp_merged.
    now destruct (last (filter _ allMaps)).
  - unfold handleClick. rewrite Hw. f_equal. f_equal.
    unfold afterWait. rewrite Ht. cbn [negb]. rewrite Hsel.
    unfold escalate. apply Nat.ltb_lt in Hlen. rewrite Hlen.
    unfold sweep. cbn [timeline clock log]. rewrite Hg. cbn [rbind].
    rewrite Hmerge.
    destruct (chooseFilesFromMap _ (VRef l) _) as [files1|e] eqn:Hre;
      cbn [rbind]; [|reflexivity].
    destruct (Nat.eqb (length files1) 0); [reflexivity|].
    rewrite dedupeFiles_firstBy, firstBy_NoDup_id; [reflexivity|].
    eapply chooseFilesFromMap_NoDup_paths; [|exact Hre].
    rewrite Hkeys. apply merged_NoDup. constructor.
Qed.

(** ** Further properties of the component *)

(** *** Content normalization, continued *)

(** A typed-array view is encoded exactly as its whole underlying buffer,
    whatever window the view has: both give the marker followed by the
    base64 text of all the bytes of the buffer when these are no more than a
    call takes arguments, and both throw a [RangeError] when they are more. *)
Theorem normalizeContent_view_as_buffer (h : heap) (l b : loc)
    (elems : list Z) (bytes : list Byte.byte) :
  h !! l = Some (OView b elems) ->
  h !! b = Some (OBuf bytes) ->
  normalizeContent h (VRef l) = normalizeContent h (VRef b) /\
  normalizeContent h (VRef b)
  = if (length bytes <=? maxArguments)%nat
    then Ok (VStr ("__base64:" +:+ btoa (string_of_list_byte bytes)))
    else Throw "RangeError".
Proof.
  intros Hl Hb. unfold normalizeContent. cbn [nullish]. rewrite Hl, Hb.
  cbn [getProp]. rewrite Hl. cbn [String.eqb Ascii.eqb Bool.eqb truthy].
  unfold binaryString, bufferBytes. rewrite Hb. cbn zeta. split; [reflexivity|].
  now destruct (length bytes <=? maxArguments)%nat.
Qed.

(** Normalization throws in two cases only: a [RangeError] for an
    [ArrayBuffer], or a view of one, with more bytes than a call takes
    arguments; and whatever [JSON.stringify] throws on an object, not a
    buffer, whose [content], [text] and [data] are all missing. *)
Theorem normalizeContent_throws_only (h : heap) (v : value) (e : string) :
  normalizeContent h v = Throw e ->
  exists l : loc,
    v = VRef l /\
    ((exists bytes : list Byte.byte,
        (h !! l = Some (OBuf bytes) \/
         exists b elems, h !! l = Some (OView b elems) /\ h !! b = Some (OBuf bytes)) /\
        (maxArguments < length bytes)%nat /\
        e = "RangeError")
     \/
     (match h !! l with
      | Some (OBuf _) | Some (OView _ _) => False
      | _ => True
      end /\
      nullish (getProp h v "content") = true /\
      nullish (getProp h v "text") = true /\
      nullish (getProp h v "data") = true /\
      JSON_stringify h v = Throw e)).
Proof.
  unfold normalizeContent. destruct (nullish v); [discriminate|].
  destruct v as [| | | | |l]; try discriminate.
  intros H. exists l. split; [reflexivity|].
  assert (Hobj :
    (if negb (nullish (getProp h (VRef l) "content"))
     then Ok (getProp h (VRef l) "content")
     else if negb (nullish (getProp h (VRef l) "text"))
          then Ok (getProp h (VRef l) "text")
          else if negb (nullish (getProp h (VRef l) "data"))
               then Ok (getProp h (VRef l) "data")
               else JSON_stringify h (VRef l)) = Throw e ->
    nullish (getProp h (VRef l) "content") = true /\
    nullish (getProp h (VRef l) "text") = true /\
    nullish (getProp h (VRef l) "data") = true /\
    JSON_stringify h (VRef l) = Throw e).
  { destruct (nullish (getProp h (VRef l) "content")); [|discriminate].
    destruct (nullish (getProp h (VRef l) "text")); [|discriminate].
    destruct (nullish (getProp h (VRef l) "data")); [|discriminate].
    cbn [negb]. auto. }
  destruct (h !! l) as [[props|elems|bytes|b elems]|] eqn:Hl.
  - right. split; [exact I|]. auto.
  - right. split; [exact I|]. auto.
  - left. exists bytes. unfold binaryString, bufferBytes in H. rewrite Hl in H.
    cbn zeta in H. destruct (Nat.leb_spec (length bytes) maxArguments) as [?|Hgt];
      cbn in H; [discriminate|].
    injection H as <-. split; [now left|]. split; [exact Hgt|reflexivity].
  - left. cbn [getProp] in H. rewrite Hl in H.
    cbn [String.eqb Ascii.eqb Bool.eqb truthy] in H.
    unfold binaryString, bufferBytes in H.
    destruct (h !! b) as [[props'|elems'|bytes|b' elems']|] eqn:Hb; cbn in H;
      try discriminate.
    exists bytes. destruct (Nat.leb_spec (length bytes) maxArguments) as [?|Hgt];
      cbn in H; [discriminate|].
    injection H as <-. split; [right; eauto|]. split; [exact Hgt|reflexivity].
  - right. split; [exact I|]. auto.
Qed.

(** *** The extractor, continued *)

Lemma extractFilesMap_ref_or_null h r :
  extractFilesMap h r = VNull \/ isReference (extractFilesMap h r).
Proof.
  unfold extractFilesMap, isReference.
  destruct (negb (truthy r) || negb (typeofObject r)) eqn:Hr; [now left|].
  apply orb_false_elim in Hr as [Htr Ho]. apply negb_false_iff in Htr, Ho.
  destruct (truthy (getProp h r "files") && typeofObject (getProp h r "files")
            && negb (isArray h (getProp h r "files"))) eqn:H1.
  { apply andb_prop in H1 as [H1 _]. apply andb_prop in H1 as [Ht Hty].
    destruct (getProp h r "files"); cbn in Ht, Hty; try discriminate. right. eauto. }
  destruct (truthy (getProp h r "snapshot")
            && truthy (getProp h (getProp h r "snapshot") "files")
            && typeofObject (getProp h (getProp h r "snapshot") "files")
            && negb (isArray h (getProp h (getProp h r "snapshot") "files"))) eqn:H2.
  { apply andb_prop in H2 as [H2 _]. apply andb_prop in H2 as [H2 Hty].
    apply andb_prop in H2 as [_ Ht].
    destruct (getProp h (getProp h r "snapshot") "files"); cbn in Ht, Hty;
      try discriminate. right. eauto. }
  destruct (Object_keys h r) as [|k0 ks]; [now left|].
  destruct (looksLikeProjectKey k0); [|now left].
  destruct r; cbn in Ho, Htr; try discriminate. right. eauto.
Qed.

(** Only a plain object yields a map: for a primitive, an array, an
    [ArrayBuffer] or a typed array the extractor answers [null]. *)
Theorem extractFilesMap_plain_objects_only (h : heap) (r : value) :
  extractFilesMap h r <> VNull ->
  exists (l : loc) (props : list (string * value)),
    r = VRef l /\ h !! l = Some (OObj props).
Proof.
  unfold extractFilesMap.
  destruct (negb (truthy r) || negb (typeofObject r)) eqn:Hr; [congruence|].
  apply orb_false_elim in Hr as [Htr Ho]. apply negb_false_iff in Htr, Ho.
  destruct r as [| | | | |l]; cbn in Ho, Htr; try discriminate.
  cbn [getProp Object_keys].
  destruct (h !! l) as [[props|elems|bytes|b elems]|] eqn:Hl.
  - eauto.
  - intros H. exfalso. apply H. cbn. destruct elems as [|x elems]; [reflexivity|].
    now rewrite length_cons, indexKeys_head, looksLikeProjectKey_zero.
  - intros H. exfalso. apply H. reflexivity.
  - intros H. exfalso. apply H. cbn. destruct elems as [|x elems]; [reflexivity|].
    now rewrite length_cons, indexKeys_head, looksLikeProjectKey_zero.
  - intros H. exfalso. apply H. reflexivity.
Qed.

(** *** The aggregator, continued *)

Lemma heapExtends_refl h : heapExtends h h.
Proof. intros l o H. exact H. Qed.

Lemma heapExtends_trans h1 h2 h3 :
  heapExtends h1 h2 -> heapExtends h2 h3 -> heapExtends h1 h3.
Proof. intros H12 H23 l o H. apply H23, H12, H. Qed.

Lemma alloc_extends h o h' l :
  alloc h o = (h', l) -> heapExtends h h' /\ h' !! l = Some o.
Proof.
  unfold alloc. intros [= <- <-]. split; [|apply lookup_insert_eq].
  intros l' o' Hl'. rewrite lookup_insert_ne; [exact Hl'|].
  intros <-. pose proof (is_fresh (dom h)) as Hf.
  apply not_elem_of_dom in Hf. congruence.
Qed.

Lemma foldM_inv {A B} (P : A -> Prop) (f : A -> B -> result A) xs a a' :
  (forall a x a', P a -> f a x = Ok a' -> P a') ->
  P a -> foldM f a xs = Ok a' -> P a'.
Proof.
  intros Hstep. revert a. induction xs as [|x xs IH]; intros a Ha; cbn.
  - now intros [= <-].
  - destruct (f a x) as [a1|] eqn:Hf; cbn; [|discriminate].
    apply IH. eapply Hstep; eauto.
Qed.

Lemma foldl_inv {A B} (P : A -> Prop) (f : A -> B -> A) xs a :
  (forall a x, P a -> P (f a x)) -> P a -> P (foldl f a xs).
Proof.
  intros Hstep. revert a. induction xs as [|x xs IH]; intros a Ha; cbn; auto.
Qed.

Lemma pushIf_refs maps m :
  Forall isReference maps -> m = VNull \/ isReference m ->
  Forall isReference (pushIf maps m).
Proof.
  intros Hm [->|Hr]; unfold pushIf; [exact Hm|].
  destruct (truthy m); [|exact Hm].
  apply Forall_app. split; [exact Hm|]. now constructor.
Qed.

Lemma extractFromSnapshot_ref_or_null h s c :
  extractFromSnapshot h s = Ok c -> c = VNull \/ isReference c.
Proof.
  unfold extractFromSnapshot.
  destruct (truthy (extractFilesMap h s)).
  { intros [= <-]. apply extractFilesMap_ref_or_null. }
  destruct (getPropE h s "snapshot") as [snap|]; cbn; [|discriminate].
  destruct (truthy (extractFilesMap h snap)).
  { intros [= <-]. apply extractFilesMap_ref_or_null. }
  destruct (getPropE h s "data") as [d|]; cbn; [|discriminate].
  destruct (truthy (extractFilesMap h d)).
  { intros [= <-]. apply extractFilesMap_ref_or_null. }
  destruct (getPropE h s "payload") as [pl|]; cbn; [|discriminate].
  intros [= <-]. apply extractFilesMap_ref_or_null.
Qed.

Lemma collapse_keeps h items h' m :
  collapse h items = Ok (h', m) -> heapExtends h h' /\ isReference m.
Proof.
  unfold collapse. destruct (foldM (collapseStep h) [] items) as [props|]; cbn;
    [|discriminate].
  unfold alloc. intros [= <- <-]. split.
  - exact (proj1 (alloc_extends h (OObj props) _ _ eq_refl)).
  - eexists. reflexivity.
Qed.

Lemma stageKeeps_push h0 h maps m :
  stageKeeps h0 (h, maps) -> m = VNull \/ isReference m ->
  stageKeeps h0 (h, pushIf maps m).
Proof. intros [He Hm] Hr. split; [exact He|]. now apply pushIf_refs. Qed.

Lemma stageKeeps_collapse h0 h maps items h' m :
  stageKeeps h0 (h, maps) -> collapse h items = Ok (h', m) ->
  stageKeeps h0 (h', maps ++ [m]).
Proof.
  intros [He Hm] [He' Hr]%collapse_keeps. split.
  - eapply heapExtends_trans; eauto.
  - apply Forall_app. split; [exact Hm|]. now constructor.
Qed.

Lemma gatherSnapshots_refs e maps maps' :
  Forall isReference maps -> gatherSnapshots e maps = Ok maps' ->
  Forall isReference maps'.
Proof.
  unfold gatherSnapshots. intros Hm. apply foldM_inv; [|exact Hm].
  intros acc s acc' Hacc.
  destruct (extractFromSnapshot (envHeap e) s) as [c|] eqn:Hc; cbn; [|discriminate].
  intros [= <-]. apply pushIf_refs; [exact Hacc|].
  eapply extractFromSnapshot_ref_or_null; eauto.
Qed.

Lemma gatherFilesStore_keeps e h0 st st' :
  stageKeeps h0 st -> gatherFilesStore e st = Ok st' -> stageKeeps h0 st'.
Proof.
  destruct st as [h maps]. intros Hk. unfold gatherFilesStore.
  destruct (containsStore e "files"); [|now intros [= <-]].
  destruct (readObjectStoreAll e "files") as [|f0 f]; [now intros [= <-]|].
  destruct (getPropE h f0 "path") as [p|]; cbn; [|discriminate].
  destruct (truthy p); [|now intros [= <-]].
  destruct (collapse h (f0 :: f)) as [[h' m]|] eqn:Hc; cbn; [|discriminate].
  intros [= <-]. eapply stageKeeps_collapse; eauto.
Qed.

Lemma gatherWorkspaceStore_keeps e h0 st :
  stageKeeps h0 st -> stageKeeps h0 (gatherWorkspaceStore e st).
Proof.
  destruct st as [h maps]. intros Hk. unfold gatherWorkspaceStore.
  destruct (containsStore e "workspace"); [|exact Hk].
  apply (foldl_inv (fun maps => stageKeeps h0 (h, maps))); [|exact Hk].
  intros acc item Hacc. apply stageKeeps_push; [exact Hacc|].
  apply extractFilesMap_ref_or_null.
Qed.

Lemma gatherBoltFiles_keeps e h0 st st' :
  stageKeeps h0 st -> gatherBoltFiles e st = Ok st' -> stageKeeps h0 st'.
Proof.
  destruct st as [h maps]. intros Hk. unfold gatherBoltFiles.
  destruct (readObjectStoreAll e "boltFiles") as [|o0 other]; [now intros [= <-]|].
  destruct (truthy o0 && truthy (getProp h o0 "path")).
  - destruct (collapse h (o0 :: other)) as [[h' m]|] eqn:Hc; cbn; [|discriminate].
    intros [= <-]. eapply stageKeeps_collapse; eauto.
  - assert (Hall : forall its,
      stageKeeps h0
        (h, foldl (fun maps it => pushIf maps (extractFilesMap h it)) maps its)).
    { intros its.
      apply (foldl_inv (fun maps => stageKeeps h0 (h, maps))); [|exact Hk].
      intros acc item Hacc. apply stageKeeps_push; [exact Hacc|].
      apply extractFilesMap_ref_or_null. }
    intros [= <-]. exact (Hall (o0 :: other)).
Qed.

Lemma workbenchStep_keeps h0 st c :
  stageKeeps h0 st -> stageKeeps h0 (fst (workbenchStep st c)).
Proof.
  destruct st as [h maps]. intros Hk. unfold workbenchStep.
  assert (Hk1 : stageKeeps h0 (h, pushIf maps (extractFilesMap h c))).
  { apply stageKeeps_push; [exact Hk|]. apply extractFilesMap_ref_or_null. }
  destruct (arrayElems h c) as [[|c0 elems]|]; try exact Hk1.
  destruct (getPropE h c0 "path") as [p|]; [|exact Hk1].
  destruct (truthy p); [|exact Hk1].
  destruct (collapse h (c0 :: elems)) as [[h' m]|] eqn:Hc; [|exact Hk1].
  cbn [fst]. eapply stageKeeps_collapse; eauto.
Qed.

Lemma workbenchLoop_keeps h0 cs st :
  stageKeeps h0 st -> stageKeeps h0 (workbenchLoop st cs).
Proof.
  revert st. induction cs as [|c cs IH]; intros st Hk; [exact Hk|].
  cbn [workbenchLoop]. pose proof (workbenchStep_keeps h0 st c Hk) as Hs.
  destruct (workbenchStep st c) as [st' completed]. cbn [fst] in Hs.
  destruct completed; auto.
Qed.

Lemma collectMaps_keeps e h maps :
  collectMaps e = Ok (h, maps) -> stageKeeps (envHeap e) (h, maps).
Proof.
  unfold collectMaps.
  destruct (gatherSnapshots e []) as [maps1|] eqn:H1; cbn; [|discriminate].
  assert (K1 : stageKeeps (envHeap e) (envHeap e, maps1)).
  { split; [apply heapExtends_refl|].
    eapply gatherSnapshots_refs; [|exact H1]. constructor. }
  destruct (gatherTopLevelStores e (envHeap e, maps1)) as [st2|] eqn:H2; cbn;
    [|discriminate].
  assert (K2 : stageKeeps (envHeap e) st2).
  { unfold gatherTopLevelStores in H2. destruct (boltHistory e).
    - destruct (gatherFilesStore e (envHeap e, maps1)) as [sta|] eqn:Ha; cbn in H2;
        [|discriminate].
      injection H2 as <-. apply gatherWorkspaceStore_keeps.
      eapply gatherFilesStore_keeps; eauto.
    - now injection H2 as <-. }
  destruct (gatherBoltFiles e st2) as [st3|] eqn:H3; cbn; [|discriminate].
  intros [= Hw]. rewrite <- Hw. unfold gatherWorkbench.
  assert (K3 : stageKeeps (envHeap e) st3) by (eapply gatherBoltFiles_keeps; eauto).
  destruct (truthy (workbenchObject (window e))); [|exact K3].
  now apply workbenchLoop_keeps.
Qed.

(** A sweep hands out references only, so that the callers' [Object.keys(m)]
    and [m[k]] never meet [null], and it leaves every object of the browser's
    heap as it was: the maps it builds itself are new objects. *)
Theorem gatherFilesMaps_keeps (e : env) (h : heap) (unique : list value) :
  gatherFilesMaps e = Ok (h, unique) ->
  heapExtends (envHeap e) h /\
  forall m : value, m ∈ unique -> isReference m.
Proof.
  unfold gatherFilesMaps.
  destruct (collectMaps e) as [[h1 maps]|] eqn:Hc; cbn; [|discriminate].
  intros [= <- <-]. apply collectMaps_keeps in Hc as [He Hm]. split; [exact He|].
  intros m Hin. rewrite dedupe_firstBy in Hin. apply firstBy_elem_of in Hin.
  rewrite Forall_forall in Hm. auto.
Qed.

Lemma extractFromSnapshot_nullish h s :
  nullish s = true -> extractFromSnapshot h s = Throw "TypeError".
Proof. destruct s; cbn; try discriminate; reflexivity. Qed.

Lemma extractFromSnapshot_defined h s :
  nullish s = false -> exists c, extractFromSnapshot h s = Ok c.
Proof.
  intros Hs. unfold extractFromSnapshot, getPropE. rewrite Hs. cbn [rbind].
  repeat match goal with |- context [if ?b then _ else _] => destruct b end; eauto.
Qed.

Lemma gatherSnapshots_nullish e maps s :
  s ∈ getSnapshotsEntries e -> nullish s = true ->
  gatherSnapshots e maps = Throw "TypeError".
Proof.
  unfold gatherSnapshots. generalize (getSnapshotsEntries e). intros snaps.
  revert maps. induction snaps as [|x snaps IH]; intros maps Hin Hs.
  - now apply elem_of_nil in Hin.
  - cbn [foldM]. destruct (nullish x) eqn:Hx.
    + now rewrite extractFromSnapshot_nullish.
    + destruct (extractFromSnapshot_defined (envHeap e) x Hx) as [c ->]. cbn [rbind].
      apply IH; [|exact Hs]. apply elem_of_cons in Hin as [->|Hin]; [congruence|exact Hin].
Qed.

(** A record of the snapshots store that is [null] or [undefined] makes the
    whole sweep throw: [s.snapshot] is read without a guard, outside the
    [try] of the workbench part. *)
Theorem gatherFilesMaps_nullish_snapshot (e : env) (s : value) :
  s ∈ getSnapshotsEntries e ->
  nullish s = true ->
  gatherFilesMaps e = Throw "TypeError".
Proof.
  intros Hin Hs. unfold gatherFilesMaps, collectMaps.
  now rewrite (gatherSnapshots_nullish e [] s Hin Hs).
Qed.

Lemma gatherSnapshots_defined e maps :
  (forall s, s ∈ getSnapshotsEntries e -> nullish s = false) ->
  exists maps', gatherSnapshots e maps = Ok maps'.
Proof.
  unfold gatherSnapshots. generalize (getSnapshotsEntries e). intros snaps.
  revert maps. induction snaps as [|x snaps IH]; intros maps Hall; cbn [foldM];
    [eauto|].
  destruct (extractFromSnapshot_defined (envHeap e) x) as [c ->]; [apply Hall; left|].
  cbn [rbind]. apply IH. intros s Hs. apply Hall. now right.
Qed.

Lemma collapse_defined h items :
  (forall it, it ∈ items -> nullish it = false) ->
  exists h' m, collapse h items = Ok (h', m).
Proof.
  intros Hall. unfold collapse.
  assert (Hf : forall props, exists props',
             foldM (collapseStep h) props items = Ok props').
  { induction items as [|it items IH]; intros props; cbn [foldM]; [eauto|].
    unfold collapseStep at 1, getPropE. rewrite (Hall it) by left. cbn [rbind].
    apply IH. intros x Hx. apply Hall. now right. }
  destruct (Hf []) as [props ->]. cbn [rbind].
  destruct (alloc h (OObj props)). eauto.
Qed.

(** A sweep returns, whatever the stores and the globals hold otherwise, as
    long as no record of the [snapshots], [files] and [boltFiles] stores is
    [null] or [undefined]. *)
Theorem gatherFilesMaps_returns (e : env) :
  (forall storeName s,
     storeName ∈ ["snapshots"; "files"; "boltFiles"] ->
     s ∈ readObjectStoreAll e storeName -> nullish s = false) ->
  exists h unique, gatherFilesMaps e = Ok (h, unique).
Proof.
  intros Hall. unfold gatherFilesMaps, collectMaps.
  destruct (gatherSnapshots_defined e []) as [maps1 ->].
  { intros s Hs. apply (Hall "snapshots"); [left|exact Hs]. }
  cbn [rbind].
  assert (H2 : exists st2, gatherTopLevelStores e (envHeap e, maps1) = Ok st2).
  { unfold gatherTopLevelStores. destruct (boltHistory e) eqn:Hdb; [|eauto].
    assert (Hf : exists sta, gatherFilesStore e (envHeap e, maps1) = Ok sta).
    { unfold gatherFilesStore. destruct (containsStore e "files"); [|eauto].
      destruct (readObjectStoreAll e "files") as [|f0 f] eqn:Hfs; [eauto|].
      assert (Hnn : forall it, it ∈ f0 :: f -> nullish it = false).
      { intros it Hit. apply (Hall "files"); [right; left|now rewrite Hfs]. }
      unfold getPropE. rewrite (Hnn f0) by left. cbn [rbind].
      destruct (truthy _); [|eauto].
      destruct (collapse_defined (envHeap e) (f0 :: f) Hnn) as (h' & m & ->).
      cbn. eauto. }
    destruct Hf as [sta ->]. cbn. eauto. }
  destruct H2 as [[h2 maps2] ->]. cbn [rbind].
  assert (H3 : exists st3, gatherBoltFiles e (h2, maps2) = Ok st3).
  { unfold gatherBoltFiles.
    destruct (readObjectStoreAll e "boltFiles") as [|o0 other] eqn:Hbs; [eauto|].
    destruct (truthy o0 && truthy (getProp h2 o0 "path")); [|eauto].
    destruct (collapse_defined h2 (o0 :: other)) as (h' & m & ->); [|cbn; eauto].
    intros it Hit. apply (Hall "boltFiles"); [right; right; left|now rewrite Hbs]. }
  destruct H3 as [st3 ->]. cbn [rbind].
  destruct (gatherWorkbench e st3) as [h unique]. cbn. eauto.
Qed.

Lemma firstBy_sublist {A K} `{EqDecision K} (f : A -> K) (l : list A) :
  firstBy f l `sublist_of` l.
Proof.
  induction l as [|x l IH]; [reflexivity|].
  cbn [firstBy]. apply sublist_skip. etransitivity; [apply sublist_filter|exact IH].
Qed.

(** Deduplication keeps the aggregation order, and a list it has produced
    is left as it is by a second pass. *)
Theorem dedupe_sublist_idempotent (h : heap) (maps : list value) :
  dedupe h maps `sublist_of` maps /\
  dedupe h (dedupe h maps) = dedupe h maps.
Proof.
  rewrite !dedupe_firstBy. split; [apply firstBy_sublist|].
  apply firstBy_NoDup_id, firstBy_NoDup_keys.
Qed.

Lemma collapseStep_lookup h items props props' k :
  foldM (collapseStep h) props items = Ok props' ->
  lookupProp k props'
  = match last (filter (fun it => toKey h (getProp h it "path") = k) items) with
    | Some it =>
        Some (coalesce (coalesce (getProp h it "content") (getProp h it "data")) it)
    | None => lookupProp k props
    end.
Proof.
  revert props. induction items as [|it items IH]; intros props; cbn [foldM].
  - now intros [= <-].
  - unfold collapseStep at 1, getPropE. destruct (nullish it); cbn [rbind];
      [discriminate|].
    intros Hf. rewrite (IH _ Hf), last_filter_cons, lookupProp_setProp.
    destruct (last (filter _ items)); [reflexivity|].
    destruct (String.eqb_spec (toKey h (getProp h it "path")) k) as [Heq|Hne].
    + now rewrite decide_True.
    + now rewrite decide_False.
Qed.

Lemma collapseStep_NoDup h items props props' :
  NoDup (fst <$> props) ->
  foldM (collapseStep h) props items = Ok props' -> NoDup (fst <$> props').
Proof.
  intros Hnd. apply (foldM_inv (fun p => NoDup (fst <$> p))); [|exact Hnd].
  intros p it p' Hp. unfold collapseStep, getPropE.
  destruct (nullish it); cbn [rbind]; [discriminate|].
  intros [= <-]. now apply setProp_NoDup.
Qed.

(** The map collapsed from an array of entries reads, under each path, what
    the last entry with that path carries ([content], else [data], else the
    entry itself); its keys are distinct; a path no entry has is absent. *)
Theorem collapse_lookup (h h' : heap) (items : list value) (m : value) :
  collapse h items = Ok (h', m) ->
  NoDup (Object_keys h' m) /\
  forall k : string,
    getProp h' m k
    = match last (filter (fun it => toKey h (getProp h it "path") = k) items) with
      | Some it =>
          coalesce (coalesce (getProp h it "content") (getProp h it "data")) it
      | None => VUndefined
      end.
Proof.
  unfold collapse.
  destruct (foldM (collapseStep h) [] items) as [props|] eqn:Hf; cbn [rbind];
    [|discriminate].
  unfold alloc. intros [= <- <-]. cbn [Object_keys getProp].
  rewrite lookup_insert_eq. split.
  - eapply collapseStep_NoDup; [|exact Hf]. constructor.
  - intros k. rewrite (collapseStep_lookup h items [] props k Hf).
    now destruct (last (filter _ items)).
Qed.

(** *** The selection heuristic, continued *)

Lemma normalizedCreated_nil keys paths :
  (forall p v, p ∈ paths -> v ∈ keyVariants p -> v ∉ keys) ->
  normalizedCreated keys paths = [].
Proof.
  intros H1. rewrite normalizedCreated_spec, filter_none; [reflexivity|].
  intros v Hv Hk. apply list_elem_of_In, in_flat_map in Hv as (p & Hp & Hv).
  apply list_elem_of_In in Hp, Hv. exact (H1 p v Hp Hv Hk).
Qed.

Lemma chosenKeys_NoDup_filter keys :
  NoDup keys -> chosenKeys keys = filter (fun k => tier2Rule k = true) keys.
Proof.
  intros Hnd. rewrite chosenKeys_spec. apply firstBy_NoDup_id.
  rewrite list_fmap_id. now apply NoDup_filter.
Qed.

(** Tier 2: when no spelling of a preferred path is a key and some key
    starts with a preferred prefix or names a root file, the selection is
    every such key, in enumeration order, however many there are. *)
Theorem chooseFilesFromMap_known_prefix (h : heap) (m : value)
    (paths : list string) (k0 : string) :
  NoDup (Object_keys h m) ->
  (forall p v, p ∈ paths -> v ∈ keyVariants p -> v ∉ Object_keys h m) ->
  k0 ∈ Object_keys h m ->
  tier2Rule k0 = true ->
  chooseFilesFromMap h m paths
  = mapM (toEntry h m) (filter (fun k => tier2Rule k = true) (Object_keys h m)).
Proof.
  intros Hnd H1 Hk0 Hrule.
  assert (Hm : truthy m = true).
  { apply (Object_keys_truthy h). intros E. rewrite E in Hk0.
    now apply elem_of_nil in Hk0. }
  rewrite chooseFilesFromMap_selected by exact Hm. unfold selectedKeys.
  rewrite normalizedCreated_nil by exact H1. cbn [length Nat.eqb negb].
  rewrite chosenKeys_NoDup_filter by exact Hnd.
  destruct (filter _ (Object_keys h m)) as [|k ks] eqn:E; [|reflexivity].
  exfalso. eapply (filter_nil_not_elem_of _ _ k0); eauto.
Qed.

(** Tier 3: when the first two tiers find nothing and some key holds one of
    the fallback patterns anywhere, the selection is every such key, in
    enumeration order. *)
Theorem chooseFilesFromMap_pattern_fallback (h : heap) (m : value)
    (paths : list string) (k0 : string) :
  (forall p v, p ∈ paths -> v ∈ keyVariants p -> v ∉ Object_keys h m) ->
  (forall k, k ∈ Object_keys h m -> tier2Rule k = false) ->
  k0 ∈ Object_keys h m ->
  fallbackPattern k0 = true ->
  chooseFilesFromMap h m paths
  = mapM (toEntry h m) (List.filter fallbackPattern (Object_keys h m)).
Proof.
  intros H1 H2 Hk0 Hpat.
  assert (Hm : truthy m = true).
  { apply (Object_keys_truthy h). intros E. rewrite E in Hk0.
    now apply elem_of_nil in Hk0. }
  rewrite chooseFilesFromMap_selected by exact Hm. unfold selectedKeys.
  rewrite normalizedCreated_nil by exact H1. cbn [length Nat.eqb negb].
  assert (E2 : chosenKeys (Object_keys h m) = []).
  { rewrite chosenKeys_spec, filter_none; [reflexivity|].
    intros k Hk. rewrite (H2 k Hk). discriminate. }
  rewrite E2. cbn [length Nat.eqb negb].
  destruct (List.filter fallbackPattern (Object_keys h m)) as [|k ks] eqn:E;
    [|reflexivity].
  exfalso. assert (Hin : k0 ∈ List.filter fallbackPattern (Object_keys h m)).
  { apply List_filter_elem_of. auto. }
  rewrite E in Hin. now apply elem_of_nil in Hin.
Qed.

Lemma mapM_length {A B} (f : A -> result B) (l : list A) (out : list B) :
  mapM f l = Ok out -> length out = length l.
Proof. intros HF%mapM_Ok_inv. symmetry. eapply Forall2_length; eauto. Qed.

Lemma Object_keys_falsy h m : truthy m = false -> Object_keys h m = [].
Proof.
  destruct m as [| | | |s|]; cbn; try reflexivity; try discriminate.
  destruct s; cbn; [reflexivity|discriminate].
Qed.

Lemma selectedKeys_nil keys paths : selectedKeys keys paths = [] <-> keys = [].
Proof.
  unfold selectedKeys. split.
  - destruct (normalizedCreated keys paths) as [|? ?] eqn:E1; cbn [length Nat.eqb negb];
      [|discriminate].
    destruct (chosenKeys keys) as [|? ?] eqn:E2; cbn [length Nat.eqb negb];
      [|discriminate].
    destruct (List.filter fallbackPattern keys) as [|? ?] eqn:E3;
      cbn [length Nat.eqb negb]; [|discriminate].
    destruct keys; [reflexivity|discriminate].
  - intros ->. cbn. destruct (normalizedCreated [] paths) eqn:E; [reflexivity|].
    exfalso. assert (Hin : s ∈ normalizedCreated [] paths) by (rewrite E; left).
    rewrite normalizedCreated_spec in Hin.
    apply (firstBy_id_sat (fun v => v ∈ [])) in Hin. now apply elem_of_nil in Hin.
Qed.

Lemma selectedKeys_length keys paths :
  (length (selectedKeys keys paths) <= length keys)%nat.
Proof.
  unfold selectedKeys.
  repeat match goal with |- context [if ?b then _ else _] => destruct b end.
  - apply submseteq_length, NoDup_submseteq.
    + rewrite normalizedCreated_spec. apply firstBy_id_NoDup_out.
    + intros k. rewrite normalizedCreated_spec.
      apply (firstBy_id_sat (fun v => v ∈ keys)).
  - apply submseteq_length, NoDup_submseteq.
    + rewrite chosenKeys_spec. apply firstBy_id_NoDup_out.
    + intros k. rewrite chosenKeys_spec. apply firstBy_id_sub.
  - apply List.filter_length_le.
  - rewrite length_take. lia.
Qed.

(** The selection is empty exactly when the map has no keys, and it never
    has more entries than the map has keys. *)
Theorem chooseFilesFromMap_size (h : heap) (m : value) (paths : list string)
    (out : list fileEntry) :
  chooseFilesFromMap h m paths = Ok out ->
  (out = [] <-> Object_keys h m = []) /\
  (length out <= length (Object_keys h m))%nat.
Proof.
  clear objectToString. destruct (truthy m) eqn:Hm.
  - rewrite chooseFilesFromMap_selected by exact Hm. intros Hlen%mapM_length.
    split.
    + rewrite <- (selectedKeys_nil (Object_keys h m) paths).
      split; intros E; apply length_zero_iff_nil;
        apply (f_equal length) in E; cbn in E; lia.
    + rewrite Hlen. apply selectedKeys_length.
  - unfold chooseFilesFromMap. rewrite Hm. cbn [negb]. intros [= <-].
    rewrite (Object_keys_falsy h m Hm). split; [tauto|reflexivity].
Qed.

(** *** The preferred paths of the handler *)

Lemma createdOf_cons p ps :
  createdOf (p :: ps)
  = if String.eqb p "" then createdOf ps
    else (if startsWith p "/" then p else "/" +:+ p) :: createdOf ps.
Proof.
  unfold createdOf. rewrite fmap_cons. cbn [List.filter].
  destruct (String.eqb_spec p "") as [->|Hne]; [reflexivity|]. cbn [negb andb].
  destruct (startsWith p "/") eqn:Hs.
  - destruct (String.eqb_spec p ""); [contradiction|reflexivity].
  - reflexivity.
Qed.

Lemma startsWith_slash_nonempty p : startsWith p "/" = true -> p <> "".
Proof. now destruct p. Qed.

(** What the handler passes on as preferred paths: no empty path, every
    path with a leading separator; paths already in that form are passed
    unchanged. *)
Theorem createdOf_leading_slash (ps : list string) :
  (forall p, p ∈ createdOf ps -> p <> "" /\ startsWith p "/" = true) /\
  createdOf (createdOf ps) = createdOf ps.
Proof.
  assert (Hall : forall p, p ∈ createdOf ps -> p <> "" /\ startsWith p "/" = true).
  { induction ps as [|q ps IH]; intros p; [intros H; now apply elem_of_nil in H|].
    rewrite createdOf_cons. destruct (String.eqb q ""); [apply IH|].
    intros [->|Hin]%elem_of_cons; [|now apply IH].
    destruct (startsWith q "/") eqn:Hs.
    - split; [now apply startsWith_slash_nonempty|exact Hs].
    - split; [discriminate|]. unfold startsWith. cbn. now destruct q. }
  split; [exact Hall|].
  induction (createdOf ps) as [|q qs IH]; [reflexivity|].
  rewrite createdOf_cons. destruct (Hall q) as [Hne Hs]; [left|].
  destruct (String.eqb_spec q ""); [contradiction|]. rewrite Hs.
  f_equal. apply IH. intros p Hp. apply Hall. now right.
Qed.

(** *** The poll loop, continued *)

Lemma pollLoop_terminates fuel targetKeys start timeoutMs intervalMs w :
  0 <= sweepMs w ->
  0 < sweepMs w + Z.max 0 intervalMs ->
  timeoutMs - (clock w - start)
    <= (Z.of_nat fuel - 1) * (sweepMs w + Z.max 0 intervalMs) ->
  (0 < fuel)%nat ->
  exists r w', pollLoop fuel targetKeys start timeoutMs intervalMs w = Some (r, w').
Proof.
  revert w. induction fuel as [|fuel IH]; intros w Hs Hstep Hrem Hfuel; [lia|].
  cbn [pollLoop]. unfold sweep.
  destruct (Z.ltb_spec (clock w - start) timeoutMs) as [Hlt|Hge].
  - destruct (gatherFilesMaps (timeline w (clock w))) as [[h maps]|e]; [|eauto].
    destruct (List.find _ maps); [eauto|].
    destruct (negb (Nat.eqb (length maps) 0) && Nat.eqb (length targetKeys) 0);
      [eauto|].
    apply IH; cbn; try assumption; nia.
  - destruct (gatherFilesMaps (timeline w (clock w))) as [[h maps]|e]; eauto.
Qed.

(** The poll loop always comes to an end when time passes between turns:
    whatever the stores hold, [floor(timeout / step) + 2] turns are enough,
    [step] being the time of one sweep and one sleep. *)
Theorem waitAndCollectFilesMap_terminates (created : list string)
    (timeoutMs intervalMs : Z) (w : world) :
  0 <= sweepMs w ->
  0 < sweepMs w + Z.max 0 intervalMs ->
  exists r w',
    waitAndCollectFilesMap
      (Z.to_nat (timeoutMs / (sweepMs w + Z.max 0 intervalMs)) + 2)
      created timeoutMs intervalMs w
    = Some (r, w').
Proof.
  intros Hs Hstep. set (step := sweepMs w + Z.max 0 intervalMs) in *.
  apply pollLoop_terminates; try assumption; [|lia].
  fold step. rewrite Z.sub_diag, Z.sub_0_r.
  destruct (Z.le_gt_cases timeoutMs 0) as [Hneg|Hpos].
  - assert (0 <= Z.of_nat (Z.to_nat (timeoutMs / step))) by lia. nia.
  - pose proof (Z.div_mod timeoutMs step ltac:(lia)) as Hdm.
    pose proof (Z.mod_pos_bound timeoutMs step Hstep) as Hmod.
    assert (0 <= timeoutMs / step) by (apply Z.div_pos; lia).
    rewrite Nat2Z.inj_add, Z2Nat.id by assumption. nia.
Qed.

(** With a budget of zero or less the loop body is never entered: there is
    exactly one sweep, no sleep, and the first candidate of that sweep, or
    [null], is returned whether or not it holds a target key. *)
Theorem waitAndCollectFilesMap_no_budget (fuel : nat) (created : list string)
    (timeoutMs intervalMs : Z) (w : world) :
  timeoutMs <= 0 ->
  waitAndCollectFilesMap (S fuel) created timeoutMs intervalMs w
  = Some (match gatherFilesMaps (timeline w (clock w)) with
          | Ok (h, maps) => Ok (h, hd VNull maps)
          | Throw e => Throw e
          end,
          advance (sweepMs w) (log Swept w)).
Proof.
  intros Ht. unfold waitAndCollectFilesMap. cbn [pollLoop].
  rewrite Z.sub_diag. destruct (Z.ltb_spec 0 timeoutMs) as [?|_]; [lia|].
  unfold sweep. now destruct (gatherFilesMaps _) as [[h maps]|e].
Qed.

Lemma find_first {A} (P : A -> bool) (before after : list A) (x : A) :
  (forall y, y ∈ before -> P y = false) -> P x = true ->
  List.find P (before ++ x :: after) = Some x.
Proof.
  induction before as [|y before IH]; intros Hb Hx; cbn.
  - now rewrite Hx.
  - rewrite (Hb y) by left. apply IH; [|exact Hx]. intros z Hz. apply Hb. now right.
Qed.

(** With a positive budget, the first candidate of the first sweep that has
    a target key (a preferred path or a root file name, as given or without
    its leading separator) is returned at once: one sweep, no sleep. *)
Theorem waitAndCollectFilesMap_first_hit (fuel : nat) (created : list string)
    (timeoutMs intervalMs : Z) (w : world) (h : heap)
    (before after : list value) (m : value) :
  0 < timeoutMs ->
  gatherFilesMaps (timeline w (clock w)) = Ok (h, before ++ m :: after) ->
  (forall b, b ∈ before -> containsTarget h (targetKeysOf created) b = false) ->
  containsTarget h (targetKeysOf created) m = true ->
  waitAndCollectFilesMap (S fuel) created timeoutMs intervalMs w
  = Some (Ok (h, m), advance (sweepMs w) (log Swept w)).
Proof.
  intros Ht Hg Hb Hm. unfold waitAndCollectFilesMap. cbn [pollLoop].
  rewrite Z.sub_diag. destruct (Z.ltb_spec 0 timeoutMs) as [_|?]; [|lia].
  unfold sweep. rewrite Hg. now rewrite find_first.
Qed.

Lemma pollLoop_result_from_sweep fuel targetKeys start timeoutMs intervalMs
    w0 w h v w' :
  turnsFrom intervalMs w0 w ->
  pollLoop fuel targetKeys start timeoutMs intervalMs w = Some (Ok (h, v), w') ->
  truthy v = true ->
  exists ws maps,
    turnsFrom intervalMs w0 ws /\ sweep ws = (Ok (h, maps), w') /\ v ∈ maps.
Proof.
  revert w. induction fuel as [|fuel IH]; intros w Hturns; cbn [pollLoop];
    [discriminate|].
  assert (Hhd : forall d maps, truthy (hd d maps) = true -> truthy d = false ->
                               hd d maps ∈ maps).
  { intros d [|x maps] Hx Hd; cbn in *; [congruence|left]. }
  destruct (sweep w) as [r w1] eqn:Hsw.
  assert (Hw1 : w1 = advance (sweepMs w) (log Swept w)).
  { unfold sweep in Hsw. now injection Hsw as _ <-. }
  destruct (clock w - start <? timeoutMs).
  - destruct r as [[h1 maps]|e]; [|discriminate].
    destruct (List.find _ maps) as [m|] eqn:Hf.
    + intros [= <- <- <-] _. exists w, maps. split; [exact Hturns|].
      split; [exact Hsw|]. apply list_elem_of_In. eapply List.find_some; eauto.
    + destruct (negb (Nat.eqb (length maps) 0) && Nat.eqb (length targetKeys) 0).
      * intros [= <- <- <-] Hv. exists w, maps. split; [exact Hturns|].
        split; [exact Hsw|]. now apply Hhd.
      * apply IH. rewrite Hw1. now constructor.
  - destruct r as [[h1 maps]|e]; [|discriminate].
    intros [= <- <- <-] Hv. exists w, maps. split; [exact Hturns|].
    split; [exact Hsw|]. now apply Hhd.
Qed.

(** What the poll loop returns, when it is not [null], comes from the sweep
    it made last: after some number of turns, each a sweep and a sleep, the
    loop swept once more, and it returns one of the candidates of that sweep
    together with the heap and the world that sweep left. *)
Theorem waitAndCollectFilesMap_result_from_sweep (fuel : nat)
    (created : list string) (timeoutMs intervalMs : Z) (w w' : world)
    (h : heap) (v : value) :
  waitAndCollectFilesMap fuel created timeoutMs intervalMs w = Some (Ok (h, v), w') ->
  truthy v = true ->
  exists (ws : world) (maps : list value),
    turnsFrom intervalMs w ws /\
    sweep ws = (Ok (h, maps), w') /\
    v ∈ maps.
Proof.
  intros Hw Hv. eapply pollLoop_result_from_sweep; [constructor|exact Hw|exact Hv].
Qed.

(** *** The click handler, continued *)

Lemma dedupeFiles_nonempty fs : fs <> [] -> dedupeFiles fs <> [].
Proof. rewrite dedupeFiles_firstBy. now destruct fs. Qed.

Lemma dedupeFiles_NoDup fs : NoDup (path <$> dedupeFiles fs).
Proof. rewrite dedupeFiles_firstBy. apply firstBy_NoDup_keys. Qed.

(** The handler's deduplication keeps, for every path, exactly the first
    entry with that path, and so never two entries with one path. *)
Theorem dedupeFiles_first_per_path (fs : list fileEntry) (p : string) :
  NoDup (path <$> dedupeFiles fs) /\
  filter (fun f => path f = p) (dedupeFiles fs)
  = option_list (head (filter (fun f => path f = p) fs)).
Proof.
  split; [apply dedupeFiles_NoDup|].
  rewrite dedupeFiles_firstBy. apply firstBy_select.
Qed.

Lemma quiet_filter (evs : list event) :
  Forall (fun ev => isFetched ev = false) evs -> List.filter isFetched evs = [].
Proof.
  induction 1 as [|ev evs Hev _ IH]; [reflexivity|]. cbn. now rewrite Hev.
Qed.

Lemma quiet_wellFormed pr hs (evs : list event) :
  Forall (fun ev => isFetched ev = false) evs -> Forall (wellFormedRequest pr hs) evs.
Proof.
  intros Hq. eapply Forall_impl; [exact Hq|].
  intros [] H; cbn in *; try exact I. discriminate.
Qed.

Lemma quietOrOneRequest_quiet pr hs evs :
  Forall (fun ev => isFetched ev = false) evs -> quietOrOneRequest pr hs evs.
Proof.
  intros Hq. split; [|now apply quiet_wellFormed].
  rewrite quiet_filter by exact Hq. cbn. lia.
Qed.

Lemma quietOrOneRequest_app_l pr hs a b :
  Forall (fun ev => isFetched ev = false) a ->
  quietOrOneRequest pr hs b -> quietOrOneRequest pr hs (a ++ b).
Proof.
  intros Ha [Hn Hw]. split.
  - now rewrite List.filter_app, (quiet_filter a Ha).
  - apply Forall_app. split; [now apply quiet_wellFormed|exact Hw].
Qed.

Lemma quietOrOneRequest_app_r pr hs a b :
  quietOrOneRequest pr hs a ->
  Forall (fun ev => isFetched ev = false) b -> quietOrOneRequest pr hs (a ++ b).
Proof.
  intros [Hn Hw] Hb. split.
  - now rewrite List.filter_app, (quiet_filter b Hb), app_nil_r.
  - apply Forall_app. split; [exact Hw|now apply quiet_wellFormed].
Qed.

Lemma pollEvent_quiet intervalMs polls :
  Forall (pollEvent intervalMs) polls ->
  Forall (fun ev => isFetched ev = false) polls.
Proof.
  intros Hp. eapply Forall_impl; [exact Hp|]. intros ev [->| ->]; reflexivity.
Qed.

Lemma upload_trace pr hs h out w :
  out <> [] -> NoDup (path <$> out) ->
  exists evs,
    events (snd (upload pr hs h out w)) = events w ++ evs /\
    quietOrOneRequest pr hs evs.
Proof.
  intros Hne Hnd. unfold upload, promptOrUndefined.
  set (s0 := SetStatus _).
  set (p1 := Prompted "Project ID for Dyad (leave blank to auto-generate):" _).
  set (p2 := Prompted "Project name:" _).
  set (body := UploadBody _ _ _ _ _).
  set (url := VITE_DYAD_BACKEND_URL hs +:+ "/api/sync/files").
  assert (Hreq : wellFormedRequest pr hs (Fetched url body)).
  { cbn. auto. }
  destruct (stringifyBody hs h body) as [text|e].
  - destruct (fetch hs url text) as [resp|e].
    + destruct (ok resp); cbn [negb snd].
      * exists [s0; p1; p2; Fetched url body;
                SetStatus ("Upload complete (" +:+ pretty (length out) +:+ ").");
                ConsoleLog].
        split; [cbn; now rewrite <- !app_assoc|].
        split; [cbn; lia|]. repeat (constructor; [first [exact Hreq|exact I]|]). constructor.
      * exists [s0; p1; p2; Fetched url body; ConsoleError;
                SetStatus ("Upload failed: " +:+ pretty (status resp))].
        split; [cbn; now rewrite <- !app_assoc|].
        split; [cbn; lia|]. repeat (constructor; [first [exact Hreq|exact I]|]). constructor.
    + exists [s0; p1; p2; Fetched url body].
      split; [cbn; now rewrite <- !app_assoc|].
      split; [cbn; lia|]. repeat (constructor; [first [exact Hreq|exact I]|]). constructor.
  - exists [s0; p1; p2]. split; [cbn; now rewrite <- !app_assoc|].
    apply quietOrOneRequest_quiet. repeat constructor.
Qed.

Lemma escalate_trace created h files0 w :
  exists evs,
    events (snd (escalate created h files0 w)) = events w ++ evs /\
    Forall (fun ev => isFetched ev = false) evs.
Proof.
  unfold escalate. destruct (length files0 <? 5)%nat.
  - exists [Swept]. split; [reflexivity|]. repeat constructor.
  - exists []. split; [cbn; now rewrite app_nil_r|constructor].
Qed.

Lemma afterWait_trace pr hs created h filesMap w :
  exists evs,
    events (snd (afterWait pr hs created h filesMap w)) = events w ++ evs /\
    quietOrOneRequest pr hs evs.
Proof.
  unfold afterWait. destruct (truthy filesMap); cbn [negb].
  2:{ eexists. split; [cbn; rewrite <- app_assoc; reflexivity|].
      apply quietOrOneRequest_quiet. repeat constructor. }
  set (w1 := log (SetStatus "Selecting generated files...") w).
  destruct (chooseFilesFromMap h filesMap created) as [files0|e].
  2:{ exists [SetStatus "Selecting generated files..."]. split; [reflexivity|].
      apply quietOrOneRequest_quiet. repeat constructor. }
  destruct (escalate_trace created h files0 w1) as (esc & Hesc & Hq).
  destruct (escalate created h files0 w1) as [[[h' files1]|e] w2]; cbn [snd] in Hesc.
  2:{ exists (SetStatus "Selecting generated files..." :: esc). split.
      - cbn [snd]. rewrite Hesc. cbn. now rewrite <- app_assoc.
      - apply quietOrOneRequest_quiet. now constructor. }
  destruct (Nat.eqb (length files1) 0) eqn:Hlen.
  - exists (SetStatus "Selecting generated files..." :: esc
            ++ [SetStatus "No files matched selection criteria."; SetRunning false]).
    split.
    + cbn. rewrite Hesc. cbn. now rewrite <- !app_assoc.
    + apply quietOrOneRequest_quiet. constructor; [reflexivity|].
      apply Forall_app. split; [exact Hq|]. repeat constructor.
  - destruct (upload_trace pr hs h' (dedupeFiles files1) w2) as (up & Hup & Hok).
    + apply dedupeFiles_nonempty. intros ->. discriminate.
    + apply dedupeFiles_NoDup.
    + exists ((SetStatus "Selecting generated files..." :: esc) ++ up). split.
      * rewrite Hup, Hesc. cbn. now rewrite <- !app_assoc.
      * apply quietOrOneRequest_app_l; [now constructor|exact Hok].
Qed.

(** Every run of the handler that ends has set the running flag first and
    cleared it last, and in between has sent at most one request; a request
    it sends goes to the sync endpoint with the [bolt-import] template, the
    framework of the props, and a non-empty list of files in which no path
    occurs twice. *)
Theorem handleClick_requests (fuel : nat) (pr : props) (hs : host) (w w' : world) :
  handleClick fuel pr hs w = Some w' ->
  exists mid : list event,
    events w' = events w ++ [SetRunning true] ++ mid ++ [SetRunning false] /\
    (length (List.filter isFetched mid) <= 1)%nat /\
    Forall (wellFormedRequest pr hs) mid.
Proof.
  unfold handleClick, waitAndCollectFilesMap.
  set (w0 := log (SetStatus "Looking for generated files...") (log (SetRunning true) w)).
  destruct (pollLoop fuel _ (clock w0) _ _ w0) as [[r w1]|] eqn:Hp; [|discriminate].
  apply pollLoop_events in Hp as (polls & Hev & Hpolls%pollEvent_quiet).
  cbn in Hev. rewrite <- app_assoc in Hev. cbn in Hev.
  destruct r as [[h filesMap]|e].
  - destruct (afterWait_trace pr hs (createdOf (createdFilePaths pr)) h filesMap w1)
      as (evs & Haw & Hok).
    destruct (afterWait pr hs _ h filesMap w1) as [[u|e] w2]; cbn [snd] in Haw;
      intros [= <-]; cbn [catchFinally log events].
    + exists (SetStatus "Looking for generated files..." :: polls ++ evs). split.
      * rewrite Haw, Hev. cbn. now rewrite <- !app_assoc.
      * apply (quietOrOneRequest_app_l pr hs (_ :: polls)); [now constructor|exact Hok].
    + exists (SetStatus "Looking for generated files..." :: polls ++ evs
              ++ [ConsoleError; SetStatus "Error — check console"]). split.
      * rewrite Haw, Hev. cbn. now rewrite <- !app_assoc.
      * apply (quietOrOneRequest_app_l pr hs (_ :: polls)); [now constructor|].
        apply quietOrOneRequest_app_r; [exact Hok|]. repeat constructor.
  - intros [= <-]. cbn [catchFinally log events].
    exists (SetStatus "Looking for generated files..." :: polls
            ++ [ConsoleError; SetStatus "Error — check console"]). split.
    + rewrite Hev. cbn. now rewrite <- !app_assoc.
    + apply quietOrOneRequest_quiet. constructor; [reflexivity|].
      apply Forall_app. split; [exact Hpolls|]. repeat constructor.
Qed.

(** When the first sweep throws (a [null] record in the snapshots store is
    enough), the handler ends in the error state: the error status, the
    running flag cleared, nothing sent. *)
Theorem handleClick_sweep_throws (fuel : nat) (pr : props) (hs : host)
    (w : world) (e : string) :
  gatherFilesMaps (timeline w (clock w)) = Throw e ->
  exists w' : world,
    handleClick (S fuel) pr hs w = Some w' /\
    events w'
    = events w ++ [SetRunning true; SetStatus "Looking for generated files...";
                   Swept; ConsoleError; SetStatus "Error — check console";
                   SetRunning false].
Proof.
  intros Hg. unfold handleClick, waitAndCollectFilesMap. cbn [pollLoop].
  unfold sweep. cbn [timeline clock log]. rewrite Hg.
  destruct (_ <? _); eexists; (split; [reflexivity|]); cbn;
    now rewrite <- !app_assoc.
Qed.

(** ** Properties of the artifact card *)

Lemma createdOf_fixed (ps : list string) :
  (forall p, p ∈ ps -> startsWith p "/" = true) -> createdOf ps = ps.
Proof.
  induction ps as [|q ps IH]; intros Hall; [reflexivity|].
  rewrite createdOf_cons. pose proof (Hall q ltac:(left)) as Hs.
  destruct (String.eqb_spec q "") as [->|_]; [discriminate|]. rewrite Hs.
  f_equal. apply IH. intros p Hp. apply Hall. now right.
Qed.

Lemma actionCreatedPath_slash a s :
  actionCreatedPath a = Some s -> startsWith s "/" = true.
Proof.
  unfold actionCreatedPath.
  destruct (match actionFilePath a with Some s0 => Some s0 | None => actionPath a end)
    as [raw|]; [|discriminate].
  destruct (String.eqb raw ""); [discriminate|].
  destruct (startsWith raw "/") eqn:Hs; intros [= <-]; [exact Hs|].
  unfold startsWith. cbn. now destruct raw.
Qed.

Lemma keepTruthyStrings_elem xs p :
  p ∈ keepTruthyStrings xs -> Some p ∈ xs.
Proof.
  unfold keepTruthyStrings. intros Hp.
  apply list_elem_of_In, in_flat_map in Hp as ([s|] & Hin & Hp); [|destruct Hp].
  destruct (String.eqb s ""); [destruct Hp|].
  destruct Hp as [<-|[]]. now apply list_elem_of_In.
Qed.

(** The preferred paths the card computes from its actions all carry a
    leading separator, so the normalization the button applies to its
    [createdFilePaths] prop leaves them exactly as they are. *)
Theorem createdFilesFromActions_normalized (actions : list action) :
  (forall p, p ∈ createdFilesFromActions actions -> startsWith p "/" = true) /\
  createdOf (createdFilesFromActions actions) = createdFilesFromActions actions.
Proof.
  assert (Hall : forall p, p ∈ createdFilesFromActions actions ->
                           startsWith p "/" = true).
  { intros p Hp%keepTruthyStrings_elem.
    apply list_elem_of_fmap in Hp as (a & Ha & _).
    eapply actionCreatedPath_slash. symmetry. exact Ha. }
  split; [exact Hall|]. now apply createdOf_fixed.
Qed.

(** A file action whose [filePath] is the empty string contributes no
    preferred path, even when its [path] holds one: the filter accepts it
    through [a.filePath || a.path], the mapping then reads
    [a.filePath ?? a.path], which is the empty string. *)
Theorem createdFilesFromActions_empty_filePath (before after : list action)
    (a : action) :
  actionFilePath a = Some "" ->
  createdFilesFromActions (before ++ a :: after)
  = createdFilesFromActions (before ++ after).
Proof.
  intros Hf. unfold createdFilesFromActions, keepTruthyStrings.
  rewrite !List.filter_app, !fmap_app, !flat_map_app. f_equal.
  cbn [List.filter]. destruct (isFileAction a); [|reflexivity].
  rewrite fmap_cons. cbn [flat_map]. unfold actionCreatedPath. rewrite Hf.
  reflexivity.
Qed.

(** Whenever the extraction written inline in [readLatestFilesMap] finds an
    object in a record, the button's [extractFilesMap] finds the same object
    in that record. *)
Theorem latestCandidateMap_agrees (h : heap) (c : value) (l : loc) :
  truthy c = true ->
  typeofObject c = true ->
  latestCandidateMap h c = VRef l ->
  extractFilesMap h c = VRef l.
Proof.
  intros Ht Ho. unfold latestCandidateMap, extractFilesMap.
  rewrite Ht, Ho. cbn [negb orb andb].
  set (f := getProp h c "files"). set (sn := getProp h c "snapshot").
  set (sf := getProp h sn "files").
  destruct (truthy f && negb (isArray h f)) eqn:C1.
  { intros Hf. apply andb_prop in C1 as [A1 R1]. rewrite A1, R1, Hf. reflexivity. }
  assert (E1 : truthy f && typeofObject f && negb (isArray h f) = false).
  { destruct (truthy f), (typeofObject f), (isArray h f); cbn in *; congruence. }
  rewrite E1.
  destruct (truthy sn && truthy sf && negb (isArray h sf)) eqn:C2.
  { intros Hf. apply andb_prop in C2 as [C2 R2]. apply andb_prop in C2 as [A2 B2].
    rewrite A2, B2, R2, Hf. reflexivity. }
  assert (E2 : truthy sn && truthy sf && typeofObject sf && negb (isArray h sf) = false).
  { destruct (truthy sn), (truthy sf), (typeofObject sf), (isArray h sf);
      cbn in *; congruence. }
  rewrite E2.
  destruct (Object_keys h c) as [|k0 ks]; [discriminate|].
  unfold looksLikeProjectKey.
  destruct (startsWith k0 "/home/project"); [trivial|discriminate].
Qed.

Lemma scanLatest_app h all extra n :
  (n <= length all)%nat -> scanLatest h (all ++ extra) n = scanLatest h all n.
Proof.
  induction n as [|n IH]; intros Hn; [reflexivity|].
  cbn [scanLatest]. rewrite app_nth1 by lia. rewrite IH by lia. reflexivity.
Qed.

Lemma scanLatest_none h all n :
  (forall s, s ∈ all ->
     truthy (firstCandidateMap h (latestCandidates h s)) = false) ->
  (n <= length all)%nat -> scanLatest h all n = VNull.
Proof.
  intros Hall. induction n as [|n IH]; intros Hn; [reflexivity|].
  cbn [scanLatest]. rewrite Hall; [apply IH; lia|].
  apply list_elem_of_In, nth_In. lia.
Qed.

Lemma scanLatest_last h init s after m :
  firstCandidateMap h (latestCandidates h s) = m -> truthy m = true ->
  (forall x, x ∈ after ->
     truthy (firstCandidateMap h (latestCandidates h x)) = false) ->
  scanLatest h (init ++ s :: after) (length (init ++ s :: after)) = m.
Proof.
  intros Hm Ht. induction after as [|x after IH] using rev_ind; intros Hafter.
  - rewrite length_app. cbn [length]. rewrite Nat.add_1_r. cbn [scanLatest].
    rewrite app_nth2 by lia. rewrite Nat.sub_diag. cbn [nth]. now rewrite Hm, Ht.
  - change (init ++ s :: after ++ [x]) with (init ++ (s :: after) ++ [x]).
    rewrite app_assoc, length_app. cbn [length]. rewrite Nat.add_1_r.
    cbn [scanLatest]. rewrite app_nth2 by lia. rewrite Nat.sub_diag. cbn [nth].
    rewrite Hafter by (apply elem_of_app; right; left).
    rewrite scanLatest_app by lia. apply IH.
    intros y Hy. apply Hafter. apply elem_of_app. now left.
Qed.

(** [readLatestFilesMap] answers with the map of the most recent record of
    the snapshots store that yields one, whatever the older records hold, and
    with [null] when the store is missing or no record yields a map. *)
Theorem readLatestFilesMap_most_recent (e : env) :
  (forall init s after m,
     containsStore e "snapshots" = true ->
     readObjectStoreAll e "snapshots" = init ++ s :: after ->
     firstCandidateMap (envHeap e) (latestCandidates (envHeap e) s) = m ->
     truthy m = true ->
     (forall x, x ∈ after ->
        truthy (firstCandidateMap (envHeap e) (latestCandidates (envHeap e) x))
        = false) ->
     readLatestFilesMap e = m) /\
  ((containsStore e "snapshots" = false \/
    forall s, s ∈ readObjectStoreAll e "snapshots" ->
      truthy (firstCandidateMap (envHeap e) (latestCandidates (envHeap e) s)) = false) ->
   readLatestFilesMap e = VNull).
Proof.
  unfold readLatestFilesMap. split.
  - intros init s after m -> -> Hm Ht Hafter. now apply scanLatest_last.
  - intros [-> |Hnone]; [reflexivity|].
    destruct (containsStore e "snapshots"); [|reflexivity].
    now apply scanLatest_none.
Qed.

Lemma keyVariants_of_slashed q :
  startsWith q "/" = true -> keyVariants q = [q; stripLeadingSlash q].
Proof.
  intros Hs. unfold keyVariants. rewrite Hs.
  destruct (String.eqb_spec q "") as [->|_]; [discriminate|reflexivity].
Qed.

Lemma stripLeadingSlash_cons q : stripLeadingSlash ("/" +:+ q) = q.
Proof. reflexivity. Qed.

Lemma postPreferred_foldl allKeys paths acc :
  foldl (postPreferredStep allKeys) acc paths
  = foldl (fun acc p => foldl (pushVariant allKeys) acc (keyVariants p))
          acc (createdOf paths).
Proof.
  revert acc. induction paths as [|p paths IH]; intros acc; [reflexivity|].
  cbn [foldl]. rewrite createdOf_cons, IH. unfold postPreferredStep at 1.
  destruct (String.eqb p ""); [reflexivity|].
  cbn [foldl]. destruct (startsWith p "/") eqn:Hs.
  - now rewrite (keyVariants_of_slashed p Hs).
  - rewrite keyVariants_slashed. reflexivity.
Qed.

Lemma postFallback_foldl allKeys acc :
  foldl (fun chosen k => if postFallbackRule k then setAdd k chosen else chosen)
        acc allKeys
  = foldl (pushNew id) acc (filter (fun k => postFallbackRule k = true) allKeys).
Proof.
  revert acc. induction allKeys as [|k ks IH]; intros acc; [reflexivity|].
  cbn [foldl]. rewrite IH, filter_cons. destruct (postFallbackRule k).
  - rewrite decide_True by reflexivity. cbn [foldl]. now rewrite setAdd_pushNew.
  - now rewrite decide_False by discriminate.
Qed.

(** The header button's upload selects as the button does on its first
    tier: when some spelling of a preferred path is a key, the keys chosen
    are exactly those the button's tier 1 chooses for the same paths, in the
    same order; otherwise they are the keys matched by the fallback rule, in
    enumeration order. *)
Theorem postChosen_as_tier1 (allKeys preferredPaths : list string) :
  (normalizedCreated allKeys (createdOf preferredPaths) <> [] ->
   postChosen allKeys preferredPaths
   = normalizedCreated allKeys (createdOf preferredPaths)) /\
  (normalizedCreated allKeys (createdOf preferredPaths) = [] ->
   NoDup allKeys ->
   postChosen allKeys preferredPaths
   = filter (fun k => postFallbackRule k = true) allKeys).
Proof.
  unfold postChosen. rewrite postPreferred_foldl.
  fold (normalizedCreated allKeys (createdOf preferredPaths)).
  destruct (normalizedCreated allKeys (createdOf preferredPaths)) as [|k ks].
  - split; [congruence|]. intros _ Hnd. cbn [length Nat.eqb].
    rewrite postFallback_foldl, foldl_pushNew_nil.
    apply firstBy_NoDup_id. rewrite list_fmap_id. now apply NoDup_filter.
  - split; [reflexivity|discriminate].
Qed.

(** For a plain object or an array, whenever the button's normalization
    yields a truthy value, [normalize] of the header upload yields the same
    value. *)
Theorem postNormalize_agrees (h : heap) (l : loc) (c : value) :
  match h !! l with
  | Some (OBuf _) | Some (OView _ _) => False
  | _ => True
  end ->
  normalizeContent h (VRef l) = Ok c ->
  truthy c = true ->
  postNormalize h (VRef l) = c.
Proof.
  intros Hkind. unfold normalizeContent, postNormalize. cbn [nullish].
  set (cv := getProp h (VRef l) "content"). set (tv := getProp h (VRef l) "text").
  set (dv := getProp h (VRef l) "data").
  assert (Hn : forall v, truthy v = true -> nullish v = false) by (now intros []).
  assert (Hf : forall v, nullish v = true -> truthy v = false) by (now intros []).
  assert (Hgoal :
    (if negb (nullish cv) then Ok cv
     else if negb (nullish tv) then Ok tv
     else if negb (nullish dv) then Ok dv else JSON_stringify h (VRef l)) = Ok c ->
    truthy c = true ->
    (if truthy cv then cv
     else if truthy tv then tv
     else if truthy dv then dv
     else match JSON_stringify h (VRef l) with Ok s => s | Throw _ => VStr (toKey h (VRef l)) end)
    = c).
  { destruct (nullish cv) eqn:Hc; cbn [negb].
    2:{ intros [= <-] Ht. now rewrite Ht. }
    rewrite (Hf cv Hc). destruct (nullish tv) eqn:Htv; cbn [negb].
    2:{ intros [= <-] Ht. now rewrite Ht. }
    rewrite (Hf tv Htv). destruct (nullish dv) eqn:Hd; cbn [negb].
    2:{ intros [= <-] Ht. now rewrite Ht. }
    rewrite (Hf dv Hd). now intros ->. }
  destruct (h !! l) as [[props|elems|bytes|b elems]|]; try contradiction;
    exact Hgoal.
Qed.

Lemma postChosen_nil allKeys preferredPaths :
  (forall p v, p ∈ createdOf preferredPaths -> v ∈ keyVariants p -> v ∉ allKeys) ->
  (forall k, k ∈ allKeys -> postFallbackRule k = false) ->
  postChosen allKeys preferredPaths = [].
Proof.
  intros H1 H2. unfold postChosen. rewrite postPreferred_foldl.
  fold (normalizedCreated allKeys (createdOf preferredPaths)).
  rewrite normalizedCreated_nil by exact H1. cbn [length Nat.eqb].
  rewrite postFallback_foldl, filter_none; [reflexivity|].
  intros k Hk. rewrite (H2 k Hk). discriminate.
Qed.

(** The header upload has no guard on an empty selection: when no spelling
    of a preferred path is a key and the fallback rule matches no key, it
    still sends its request, with an empty list of files. *)
Theorem postFilesToDyad_sends_empty (hs : host) (title : option string)
    (h : heap) (filesMap : value) (pid pname : option string)
    (preferredPaths : list string) (w : world) (text : string) :
  let allKeys := if truthy filesMap then Object_keys h filesMap else [] in
  let payload :=
    UploadBody (match pid with
                | Some s => if String.eqb s "" then None else Some s
                | None => None
                end)
               (Some (orString pname
                        (orString title
                           (orString (Some (documentTitle hs)) "bolt-generated-app"))))
               "react" "bolt-import" [] in
  (forall p v, p ∈ createdOf preferredPaths -> v ∈ keyVariants p -> v ∉ allKeys) ->
  (forall k, k ∈ allKeys -> postFallbackRule k = false) ->
  stringifyBody hs h payload = Ok text ->
  postFilesToDyad hs title h filesMap pid pname preferredPaths w
  = (fetch hs (VITE_DYAD_BACKEND_URL hs +:+ "/api/sync/files") text,
     log (Fetched (VITE_DYAD_BACKEND_URL hs +:+ "/api/sync/files") payload) w).
Proof.
  intros allKeys payload H1 H2 Hs. unfold postFilesToDyad.
  fold allKeys. rewrite (postChosen_nil allKeys preferredPaths H1 H2).
  cbn [fmap list_fmap]. fold payload. now rewrite Hs.
Qed.

End SendToDyadButton.

(** ** The properties on the sample data *)

Lemma normalizeContent_round_trip_sample :
  normalizeContent stringifyStub btoaStub sampleMaxArguments projectHeap (VStr "x") = Ok (VStr "x").
Proof.
  exact (proj1 (normalizeContent_round_trip stringifyStub btoaStub sampleMaxArguments projectHeap
                  1%positive "x" "x")).
Defined.

Lemma gatherFilesMaps_dedupe_sample :
  exists unique : list value,
    gatherFilesMaps objectToStringStub twinEnv = Ok (twinHeap, unique) /\
    NoDup (signature twinHeap <$> unique) /\
    forall sig : string,
      filter (fun u => signature twinHeap u = sig) unique
      = option_list (head (filter (fun m => signature twinHeap m = sig)
                             [VRef 2%positive; VRef 9%positive; VRef 5%positive])).
Proof.
  apply (gatherFilesMaps_dedupe objectToStringStub twinEnv twinHeap
           [VRef 2%positive; VRef 9%positive; VRef 5%positive]).
  vm_compute. reflexivity.
Defined.

Lemma gatherFilesMaps_twin_sample :
  gatherFilesMaps objectToStringStub twinEnv
  = Ok (twinHeap, [VRef 2%positive; VRef 5%positive]).
Proof. vm_compute. reflexivity. Qed.

Lemma chooseFilesFromMap_preferred_sample :
  chooseFilesFromMap stringifyStub btoaStub sampleMaxArguments projectHeap (VRef 8%positive) ["a"]
  = Ok [FileEntry "a" (VStr "x")] /\
  chooseFilesFromMap stringifyStub btoaStub sampleMaxArguments projectHeap (VRef 8%positive) ["/a"]
  = Ok [FileEntry "a" (VStr "x")] /\
  chooseFilesFromMap stringifyStub btoaStub sampleMaxArguments projectHeap (VRef 8%positive) ["/b"; "a"]
  = Ok [FileEntry "b" (VStr "y"); FileEntry "a" (VStr "x")].
Proof.
  destruct (chooseFilesFromMap_preferred stringifyStub btoaStub sampleMaxArguments projectHeap
              (VRef 8%positive) "a" ["/b"; "a"]) as [Hone Hall].
  destruct Hone as [Ha Hslash].
  - discriminate.
  - reflexivity.
  - apply (bool_decide_unpack _). vm_compute. exact I.
  - apply (bool_decide_unpack _). vm_compute. exact I.
  - split; [rewrite Ha; reflexivity|].
    split; [etransitivity; [exact Hslash|reflexivity]|].
    rewrite Hall; [vm_compute; reflexivity|].
    exists "a", "a". repeat split; apply (bool_decide_unpack _); vm_compute; exact I.
Defined.

Lemma chooseFilesFromMap_entries_sample :
  NoDup (path <$> [FileEntry "/home/project/package.json" (VStr "{}");
                   FileEntry "/home/project/src/App.tsx" (VStr "x")]) /\
  Forall (fun e : fileEntry =>
            path e ∈ Object_keys projectHeap (VRef 2%positive) /\
            normalizeContent stringifyStub btoaStub sampleMaxArguments projectHeap
              (getProp projectHeap (VRef 2%positive) (path e)) = Ok (content e))
         [FileEntry "/home/project/package.json" (VStr "{}");
          FileEntry "/home/project/src/App.tsx" (VStr "x")].
Proof.
  destruct (chooseFilesFromMap_entries stringifyStub btoaStub sampleMaxArguments projectHeap
              (VRef 2%positive) []) as [_ Hout].
  - apply (bool_decide_unpack _). vm_compute. exact I.
  - destruct (Hout [FileEntry "/home/project/package.json" (VStr "{}");
                    FileEntry "/home/project/src/App.tsx" (VStr "x")])
      as [Hnd Hall]; [vm_compute; reflexivity|].
    split; [exact Hnd|]. apply Forall_forall. exact Hall.
Defined.

Lemma chooseFilesFromMap_project_sample :
  chooseFilesFromMap stringifyStub btoaStub sampleMaxArguments projectHeap (VRef 2%positive) []
  = Ok [FileEntry "/home/project/package.json" (VStr "{}");
        FileEntry "/home/project/src/App.tsx" (VStr "x")].
Proof. vm_compute. reflexivity. Qed.

Lemma manyKeys_unmatched :
  forallb (fun k => forallb (fun pref => negb (matchesPrefix k pref)) PREFERRED_PREFIXES
                    && forallb (fun root => negb (matchesRoot k root)) PREFERRED_ROOT_FILES
                    && negb (fallbackPattern k))
          (Object_keys manyHeap (VRef 1%positive)) = true.
Proof. vm_compute. reflexivity. Qed.

Lemma chooseFilesFromMap_last_resort_sample :
  chooseFilesFromMap stringifyStub btoaStub sampleMaxArguments manyHeap (VRef 1%positive) []
  = mapM (toEntry stringifyStub btoaStub sampleMaxArguments manyHeap (VRef 1%positive))
         (take 5000 (Object_keys manyHeap (VRef 1%positive))).
Proof.
  assert (Hall : forall k, k ∈ Object_keys manyHeap (VRef 1%positive) ->
            forallb (fun pref => negb (matchesPrefix k pref)) PREFERRED_PREFIXES
            && forallb (fun root => negb (matchesRoot k root)) PREFERRED_ROOT_FILES
            && negb (fallbackPattern k) = true).
  { intros k Hk. apply list_elem_of_In in Hk.
    exact (proj1 (forallb_forall _ _) manyKeys_unmatched k Hk). }
  apply (chooseFilesFromMap_last_resort stringifyStub btoaStub sampleMaxArguments manyHeap
           (VRef 1%positive) []).
  - apply Nat.ltb_lt. vm_compute. reflexivity.
  - intros p v Hp. now apply elem_of_nil in Hp.
  - intros k pref Hk Hpref. apply Hall in Hk.
    apply andb_prop in Hk as [Hk _]. apply andb_prop in Hk as [Hk _].
    apply list_elem_of_In in Hpref.
    apply negb_true_iff. exact (proj1 (forallb_forall _ _) Hk pref Hpref).
  - intros k root Hk Hroot. apply Hall in Hk.
    apply andb_prop in Hk as [Hk _]. apply andb_prop in Hk as [_ Hk].
    apply list_elem_of_In in Hroot.
    apply negb_true_iff. exact (proj1 (forallb_forall _ _) Hk root Hroot).
  - intros k Hk. apply Hall in Hk. apply andb_prop in Hk as [_ Hk].
    now apply negb_true_iff.
Defined.

Lemma handleClick_no_files_sample :
  exists (w' : world) (polls : list event),
    handleClick stringifyStub btoaStub sampleMaxArguments objectToStringStub 30 sampleProps sampleHost
      (worldOf emptyEnv) = Some w' /\
    events w'
    = events (worldOf emptyEnv)
      ++ [SetRunning true; SetStatus "Looking for generated files..."]
      ++ polls
      ++ [SetStatus "No snapshot / workspace files found.";
          SetRunning false; SetRunning false] /\
    Forall (pollEvent (waitIntervalMs sampleProps)) polls /\
    forall url body, Fetched url body ∉ polls.
Proof.
  match eval vm_compute in
    (waitAndCollectFilesMap objectToStringStub 30
       (createdOf (createdFilePaths sampleProps))
       (waitTimeoutMs sampleProps) (waitIntervalMs sampleProps)
       (log (SetStatus "Looking for generated files...")
          (log (SetRunning true) (worldOf emptyEnv))))
  with
  | Some (Ok (?h, _), ?w1) =>
      apply (handleClick_no_files stringifyStub btoaStub sampleMaxArguments objectToStringStub
               30 sampleProps sampleHost (worldOf emptyEnv) w1 h)
  end.
  vm_compute. reflexivity.
Defined.

Lemma handleClick_no_files_log :
  events <$> handleClick stringifyStub btoaStub sampleMaxArguments objectToStringStub 30 sampleProps
               sampleHost (worldOf emptyEnv)
  = Some ([SetRunning true; SetStatus "Looking for generated files..."; Swept]
          ++ mjoin (replicate 23 [Slept 350; Swept])
          ++ [SetStatus "No snapshot / workspace files found.";
              SetRunning false; SetRunning false]).
Proof. vm_compute. reflexivity. Qed.

Lemma handleClick_escalation_sample :
  exists (h3 : heap) (merged : value),
    mergeAll projectHeap [VRef 5%positive; VRef 2%positive] = (h3, merged) /\
    (forall k, k ∈ Object_keys h3 merged
               <-> exists m, m ∈ [VRef 5%positive; VRef 2%positive]
                             /\ k ∈ Object_keys projectHeap m) /\
    forall k, getProp h3 merged k
              = match last (filter (fun m => k ∈ Object_keys projectHeap m)
                              [VRef 5%positive; VRef 2%positive]) with
                | Some m => getProp projectHeap m k
                | None => VUndefined
                end.
Proof.
  match eval vm_compute in
    (waitAndCollectFilesMap objectToStringStub 30
       (createdOf (createdFilePaths sampleProps))
       (waitTimeoutMs sampleProps) (waitIntervalMs sampleProps)
       (log (SetStatus "Looking for generated files...")
          (log (SetRunning true) (worldOf projectEnv))))
  with
  | Some (Ok (?h, ?fm), ?w1) =>
      destruct (handleClick_escalation stringifyStub btoaStub sampleMaxArguments objectToStringStub
                  30 sampleProps sampleHost (worldOf projectEnv) w1 h projectHeap fm
                  [FileEntry "/home/project/package.json" (VStr "{}");
                   FileEntry "/home/project/src/App.tsx" (VStr "x")]
                  [VRef 5%positive; VRef 2%positive])
        as (h3 & merged & Hmerge & Hkeys & Hget & _)
  end.
  - vm_compute. reflexivity.
  - reflexivity.
  - vm_compute. reflexivity.
  - cbn. lia.
  - vm_compute. reflexivity.
  - exists h3, merged. auto.
Defined.

Lemma handleClick_escalation_log :
  events <$> handleClick stringifyStub btoaStub sampleMaxArguments objectToStringStub 30 sampleProps
               sampleHost (worldOf projectEnv)
  = Some [SetRunning true; SetStatus "Looking for generated files..."; Swept;
          SetStatus "Selecting generated files..."; Swept;
          SetStatus "Uploading 2 files...";
          Prompted "Project ID for Dyad (leave blank to auto-generate):"
                   "bolt-abc1234";
          Prompted "Project name:" "My app";
          Fetched "http://localhost:9999/api/sync/files"
            (UploadBody (Some "bolt-abc1234") (Some "My app") "react" "bolt-import"
               [FileEntry "/home/project/package.json" (VStr "{}");
                FileEntry "/home/project/src/App.tsx" (VStr "x")]);
          SetStatus "Upload complete (2)."; ConsoleLog; SetRunning false].
Proof. vm_compute. reflexivity. Qed.

(** C1 fails on the code.  The preferred paths are empty and the first sweep
    finds a candidate, the map [{"README.md": "x"}]; the loop does not return
    it on the first turn: it sweeps and sleeps until the budget of 8000 ms is
    used up, 23 sleeps of 350 ms, and returns the candidate only from the
    sweep after the loop. *)
Lemma waitAndCollectFilesMap_waits_out_budget :
  gatherFilesMaps objectToStringStub readmeEnv
  = Ok (projectHeap, [VRef 5%positive]) /\
  waitAndCollectFilesMap objectToStringStub 30 [] 8000 350 (worldOf readmeEnv)
  = Some (Ok (projectHeap, VRef 5%positive),
          World 9290 (fun _ => readmeEnv) 10
                (Swept :: mjoin (replicate 23 [Slept 350; Swept]))).
Proof. split; vm_compute; reflexivity. Qed.

(** ** The further properties on the sample data *)

Lemma normalizeContent_view_as_buffer_sample :
  normalizeContent stringifyStub btoaStub sampleMaxArguments binaryHeap (VRef 2%positive)
  = normalizeContent stringifyStub btoaStub sampleMaxArguments binaryHeap (VRef 1%positive) /\
  normalizeContent stringifyStub btoaStub sampleMaxArguments binaryHeap (VRef 1%positive)
  = Ok (VStr "__base64:AB").
Proof.
  destruct (normalizeContent_view_as_buffer stringifyStub btoaStub sampleMaxArguments
              binaryHeap 2%positive 1%positive [66] [Byte.x41; Byte.x42])
    as [Hsame Hbuf]; [reflexivity|reflexivity|].
  split; [exact Hsame|]. rewrite Hbuf. reflexivity.
Defined.

Lemma normalizeContent_large_buffer_sample :
  normalizeContent stringifyStub btoaStub 1 binaryHeap (VRef 1%positive)
  = Throw "RangeError" /\
  normalizeContent stringifyStub btoaStub 1 binaryHeap (VRef 2%positive)
  = Throw "RangeError".
Proof. split; reflexivity. Qed.

Lemma normalizeContent_throws_only_sample :
  exists l : loc,
    VRef 4%positive = VRef l /\
    ((exists bytes : list Byte.byte,
        (projectHeap !! l = Some (OBuf bytes) \/
         exists b elems,
           projectHeap !! l = Some (OView b elems) /\
           projectHeap !! b = Some (OBuf bytes)) /\
        (sampleMaxArguments < length bytes)%nat /\
        "cyclic object value" = "RangeError")
     \/
     (match projectHeap !! l with
      | Some (OBuf _) | Some (OView _ _) => False
      | _ => True
      end /\
      nullish (getProp projectHeap (VRef 4%positive) "content") = true /\
      nullish (getProp projectHeap (VRef 4%positive) "text") = true /\
      nullish (getProp projectHeap (VRef 4%positive) "data") = true /\
      throwingStringify projectHeap (VRef 4%positive) = Throw "cyclic object value")).
Proof.
  apply (normalizeContent_throws_only throwingStringify btoaStub sampleMaxArguments
           projectHeap (VRef 4%positive) "cyclic object value").
  reflexivity.
Defined.

Lemma extractFilesMap_plain_objects_only_sample :
  exists (l : loc) (props : list (string * value)),
    VRef 1%positive = VRef l /\ projectHeap !! l = Some (OObj props).
Proof.
  apply (extractFilesMap_plain_objects_only projectHeap (VRef 1%positive)).
  vm_compute. discriminate.
Defined.

Lemma gatherFilesMaps_keeps_sample :
  heapExtends entriesHeap
    (<[4%positive := OObj [("src/a.ts", VStr "A2"); ("b.txt", VStr "B")]]> entriesHeap) /\
  forall m : value, m ∈ [VRef 4%positive] -> isReference m.
Proof.
  apply (gatherFilesMaps_keeps objectToStringStub entriesEnv).
  vm_compute. reflexivity.
Defined.

Lemma gatherFilesMaps_nullish_snapshot_sample :
  gatherFilesMaps objectToStringStub brokenEnv = Throw "TypeError".
Proof.
  apply (gatherFilesMaps_nullish_snapshot objectToStringStub brokenEnv VNull).
  - apply (bool_decide_unpack _). vm_compute. exact I.
  - reflexivity.
Defined.

Lemma gatherFilesMaps_returns_sample :
  exists h unique, gatherFilesMaps objectToStringStub projectEnv = Ok (h, unique).
Proof.
  apply (gatherFilesMaps_returns objectToStringStub projectEnv).
  intros storeName s Hstore Hs.
  assert (Hall : forallb (fun name =>
                   forallb (fun r => negb (nullish r))
                           (readObjectStoreAll projectEnv name))
                   ["snapshots"; "files"; "boltFiles"] = true)
    by (vm_compute; reflexivity).
  apply list_elem_of_In in Hstore, Hs.
  pose proof (proj1 (forallb_forall _ _) Hall storeName Hstore) as Hrec.
  apply negb_true_iff. exact (proj1 (forallb_forall _ _) Hrec s Hs).
Defined.

Lemma collapse_lookup_sample :
  NoDup (Object_keys
           (<[4%positive := OObj [("src/a.ts", VStr "A2"); ("b.txt", VStr "B")]]>
              entriesHeap) (VRef 4%positive)) /\
  getProp (<[4%positive := OObj [("src/a.ts", VStr "A2"); ("b.txt", VStr "B")]]>
             entriesHeap) (VRef 4%positive) "src/a.ts"
  = VStr "A2".
Proof.
  destruct (collapse_lookup btoaStub objectToStringStub entriesHeap
              (<[4%positive := OObj [("src/a.ts", VStr "A2"); ("b.txt", VStr "B")]]>
                 entriesHeap)
              [VRef 1%positive; VRef 2%positive; VRef 3%positive] (VRef 4%positive))
    as [Hnd Hget].
  - vm_compute. reflexivity.
  - split; [exact Hnd|]. rewrite Hget. vm_compute. reflexivity.
Defined.

Lemma chooseFilesFromMap_known_prefix_sample :
  chooseFilesFromMap stringifyStub btoaStub sampleMaxArguments projectHeap (VRef 2%positive) []
  = Ok [FileEntry "/home/project/package.json" (VStr "{}");
        FileEntry "/home/project/src/App.tsx" (VStr "x")].
Proof.
  rewrite (chooseFilesFromMap_known_prefix stringifyStub btoaStub sampleMaxArguments projectHeap
             (VRef 2%positive) [] "/home/project/package.json").
  - vm_compute. reflexivity.
  - apply (bool_decide_unpack _). vm_compute. exact I.
  - intros p v Hp. now apply elem_of_nil in Hp.
  - apply (bool_decide_unpack _). vm_compute. exact I.
  - reflexivity.
Defined.

Lemma chooseFilesFromMap_pattern_fallback_sample :
  chooseFilesFromMap stringifyStub btoaStub sampleMaxArguments nestedHeap (VRef 1%positive) []
  = Ok [FileEntry "app/src/x.ts" (VStr "x")].
Proof.
  rewrite (chooseFilesFromMap_pattern_fallback stringifyStub btoaStub sampleMaxArguments nestedHeap
             (VRef 1%positive) [] "app/src/x.ts").
  - vm_compute. reflexivity.
  - intros p v Hp. now apply elem_of_nil in Hp.
  - intros k Hk.
    assert (Hall : forallb (fun k => negb (tier2Rule k))
                     (Object_keys nestedHeap (VRef 1%positive)) = true)
      by (vm_compute; reflexivity).
    apply list_elem_of_In in Hk. apply negb_true_iff.
    exact (proj1 (forallb_forall _ _) Hall k Hk).
  - apply (bool_decide_unpack _). vm_compute. exact I.
  - reflexivity.
Defined.

Lemma chooseFilesFromMap_size_sample :
  ([FileEntry "app/src/x.ts" (VStr "x")] = []
   <-> Object_keys nestedHeap (VRef 1%positive) = []) /\
  (length [FileEntry "app/src/x.ts" (VStr "x")]
   <= length (Object_keys nestedHeap (VRef 1%positive)))%nat.
Proof.
  apply (chooseFilesFromMap_size stringifyStub btoaStub sampleMaxArguments nestedHeap
           (VRef 1%positive) []).
  vm_compute. reflexivity.
Defined.

Lemma waitAndCollectFilesMap_terminates_sample :
  exists r w',
    waitAndCollectFilesMap objectToStringStub
      (Z.to_nat (8000 / (sweepMs (worldOf readmeEnv) + Z.max 0 350)) + 2)
      [] 8000 350 (worldOf readmeEnv)
    = Some (r, w').
Proof.
  apply (waitAndCollectFilesMap_terminates objectToStringStub [] 8000 350
           (worldOf readmeEnv)); cbn; lia.
Defined.

Lemma waitAndCollectFilesMap_no_budget_sample :
  waitAndCollectFilesMap objectToStringStub 1 [] 0 350 (worldOf readmeEnv)
  = Some (Ok (projectHeap, VRef 5%positive),
          World 1010 (fun _ => readmeEnv) 10 [Swept]).
Proof.
  rewrite (waitAndCollectFilesMap_no_budget objectToStringStub 0 [] 0 350
             (worldOf readmeEnv)) by lia.
  vm_compute. reflexivity.
Defined.

Lemma waitAndCollectFilesMap_first_hit_sample :
  waitAndCollectFilesMap objectToStringStub 1 [] 8000 350 (worldOf projectEnv)
  = Some (Ok (projectHeap, VRef 2%positive),
          advance (sweepMs (worldOf projectEnv)) (log Swept (worldOf projectEnv))).
Proof.
  apply (waitAndCollectFilesMap_first_hit objectToStringStub 0 [] 8000 350
           (worldOf projectEnv) projectHeap [VRef 5%positive] [] (VRef 2%positive)).
  - lia.
  - vm_compute. reflexivity.
  - intros b Hb. apply list_elem_of_singleton in Hb as ->. vm_compute. reflexivity.
  - vm_compute. reflexivity.
Defined.

Lemma waitAndCollectFilesMap_result_from_sweep_sample :
  exists (ws : world) (maps : list value),
    turnsFrom 350 (worldOf projectEnv) ws /\
    sweep objectToStringStub ws
    = (Ok (projectHeap, maps),
       advance (sweepMs (worldOf projectEnv)) (log Swept (worldOf projectEnv))) /\
    VRef 2%positive ∈ maps.
Proof.
  apply (waitAndCollectFilesMap_result_from_sweep objectToStringStub 1 [] 8000 350
           (worldOf projectEnv)).
  - vm_compute. reflexivity.
  - reflexivity.
Defined.

Lemma waitAndCollectFilesMap_no_candidates_sample :
  exists fuel h w',
    waitAndCollectFilesMap objectToStringStub fuel [] 8000 350 (worldOf emptyEnv)
    = Some (Ok (h, VNull), w').
Proof.
  apply (waitAndCollectFilesMap_no_candidates objectToStringStub [] 8000 350
           (worldOf emptyEnv)).
  - intros t. eexists. vm_compute. reflexivity.
  - cbn. lia.
  - cbn. lia.
Defined.

Lemma handleClick_requests_sample :
  exists (w' : world) (mid : list event),
    handleClick stringifyStub btoaStub sampleMaxArguments objectToStringStub 30 sampleProps sampleHost
      (worldOf projectEnv) = Some w' /\
    events w'
    = events (worldOf projectEnv) ++ [SetRunning true] ++ mid ++ [SetRunning false] /\
    (length (List.filter isFetched mid) <= 1)%nat /\
    Forall (wellFormedRequest sampleProps sampleHost) mid.
Proof.
  match eval vm_compute in
    (handleClick stringifyStub btoaStub sampleMaxArguments objectToStringStub 30 sampleProps sampleHost
       (worldOf projectEnv))
  with
  | Some ?w1 =>
      exists w1;
      destruct (handleClick_requests stringifyStub btoaStub sampleMaxArguments objectToStringStub 30
                  sampleProps sampleHost (worldOf projectEnv) w1)
        as (mid & Hev & Hn & Hwf);
      [vm_compute; reflexivity|exists mid]
  end.
  split; [vm_compute; reflexivity|]. auto.
Defined.

Lemma handleClick_sweep_throws_sample :
  exists w' : world,
    handleClick stringifyStub btoaStub sampleMaxArguments objectToStringStub 1 sampleProps sampleHost
      (worldOf brokenEnv) = Some w' /\
    events w'
    = events (worldOf brokenEnv)
      ++ [SetRunning true; SetStatus "Looking for generated files...";
          Swept; ConsoleError; SetStatus "Error — check console";
          SetRunning false].
Proof.
  apply (handleClick_sweep_throws stringifyStub btoaStub sampleMaxArguments objectToStringStub 0
           sampleProps sampleHost (worldOf brokenEnv) "TypeError").
  vm_compute. reflexivity.
Defined.

Lemma createdFilesFromActions_sample :
  createdFilesFromActions sampleActions = ["/src/a.ts"; "/home/project/c.ts"].
Proof. vm_compute. reflexivity. Qed.

Lemma createdFilesFromActions_empty_filePath_sample :
  createdFilesFromActions sampleActions
  = createdFilesFromActions
      [ Action "file" "complete" (Some "src/a.ts") None;
        Action "shell" "complete" None None;
        Action "file" "running" None (Some "/home/project/c.ts") ].
Proof.
  apply (createdFilesFromActions_empty_filePath
           [Action "file" "complete" (Some "src/a.ts") None]
           [Action "shell" "complete" None None;
            Action "file" "running" None (Some "/home/project/c.ts")]
           (Action "file" "complete" (Some "") (Some "src/b.ts"))).
  reflexivity.
Defined.

Lemma latestCandidateMap_agrees_sample :
  extractFilesMap projectHeap (VRef 7%positive) = VRef 2%positive.
Proof.
  apply (latestCandidateMap_agrees projectHeap (VRef 7%positive) 2%positive);
    reflexivity.
Defined.

Lemma readLatestFilesMap_most_recent_sample :
  readLatestFilesMap brokenEnv = VRef 2%positive.
Proof.
  apply (proj1 (readLatestFilesMap_most_recent brokenEnv) [] (VRef 1%positive) [VNull]).
  - reflexivity.
  - reflexivity.
  - reflexivity.
  - reflexivity.
  - intros x Hx. apply list_elem_of_singleton in Hx as ->. reflexivity.
Defined.

Lemma postChosen_as_tier1_sample :
  postChosen ["/home/project/src/App.tsx"; "home/project/src/App.tsx"; "README.md"]
             ["home/project/src/App.tsx"]
  = normalizedCreated
      ["/home/project/src/App.tsx"; "home/project/src/App.tsx"; "README.md"]
      (createdOf ["home/project/src/App.tsx"]).
Proof.
  apply (proj1 (postChosen_as_tier1
                  ["/home/project/src/App.tsx"; "home/project/src/App.tsx"; "README.md"]
                  ["home/project/src/App.tsx"])).
  vm_compute. discriminate.
Defined.

Lemma postNormalize_agrees_sample :
  postNormalize stringifyStub objectToStringStub entriesHeap (VRef 1%positive)
  = VStr "A".
Proof.
  apply (postNormalize_agrees stringifyStub btoaStub sampleMaxArguments objectToStringStub entriesHeap
           1%positive (VStr "A")).
  - vm_compute. exact I.
  - vm_compute. reflexivity.
  - reflexivity.
Defined.

Lemma postFilesToDyad_sends_empty_sample :
  postFilesToDyad stringifyStub objectToStringStub sampleHost None projectHeap
    (VRef 5%positive) None None [] (worldOf emptyEnv)
  = (Ok (Response true 200),
     log (Fetched "http://localhost:9999/api/sync/files"
            (UploadBody None (Some "My app") "react" "bolt-import" []))
         (worldOf emptyEnv)).
Proof.
  apply (postFilesToDyad_sends_empty stringifyStub objectToStringStub sampleHost
           None projectHeap (VRef 5%positive) None None [] (worldOf emptyEnv) "{}").
  - intros p v Hp. now apply elem_of_nil in Hp.
  - intros k Hk. cbn in Hk. apply list_elem_of_singleton in Hk as ->. reflexivity.
  - reflexivity.
Defined.
